(** * latexexpr_efficalc.sympy: the bridge between LaTeX expression trees
      and the trees of the external computer-algebra system (CAS)

    Shallow embedding of [src/latexexpr_efficalc/sympy/__init__.py].

    - Expression trees of the parent package ([Variable], [Operation],
      [Expression]) are an inductive type; the CAS expressions are a
      second inductive type holding the term exactly as the constructor
      calls of the module issue it.
    - Python exceptions are an error type; every function of the module
      that can raise returns a [result].
    - The objects a caller holds by reference live in a heap (a list
      indexed by location); the function forms and the method forms of
      the six operations run in a state-and-error monad over that heap,
      which also records every call into the CAS.
    - What the module only imports is a parameter: the CAS entry points
      and the coercion the CAS applies to a foreign argument (class
      [sympy.Cas]), the defaults of a freshly built [Operation] (class
      [latexexpr_efficalc.Defaults]). *)

From Stdlib Require Import ZArith QArith Reals Ascii String List Lia Lra.
From stdpp Require Import gmap strings list pretty.

Set Default Proof Using "Type".
Open Scope string_scope.
Open Scope Z_scope.

(** ** Python exceptions and fallible results *)

Inductive PyExn :=
| TypeError
| LaTeXExpressionError
| UnboundLocalError
| KeyError
| AttributeError
| IndexError
| OverflowError
| ValueError
| SympifyError
| ReferenceError
| CasError (msg : string).

Inductive result (A : Type) :=
| Ok (a : A)
| Raise (e : PyExn).
Arguments Ok {A} a.
Arguments Raise {A} e.

#[global] Instance result_ret : MRet result := fun A a => Ok a.

#[global] Instance result_bind : MBind result := fun A B k r =>
  match r with
  | Ok a => k a
  | Raise e => Raise e
  end.

#[global] Instance result_fmap : FMap result := fun A B f r =>
  match r with
  | Ok a => Ok (f a)
  | Raise e => Raise e
  end.

(** ** Python numbers

    A [Variable] of the parent package carries an [int], a [float] or
    [None].  A finite float is modelled by the rational it denotes; an
    [int] is taken within the range of the floats. *)

Inductive pyfloat :=
| Finite (q : Q)
| Inf (negative : bool)
| Nan.

Inductive PyNum :=
| PyInt (z : Z)
| PyFloat (f : pyfloat).

(** [float(v)] *)
Definition py_float (v : PyNum) : pyfloat :=
  match v with
  | PyInt z => Finite (inject_Z z)
  | PyFloat f => f
  end.

(** [int(v)]: truncation towards zero; an infinity raises
    [OverflowError], a NaN [ValueError] *)
Definition py_int (v : PyNum) : result Z :=
  match v with
  | PyInt z => Ok z
  | PyFloat (Finite q) => Ok (Z.quot (Qnum q) (Zpos (Qden q)))
  | PyFloat (Inf _) => Raise OverflowError
  | PyFloat Nan => Raise ValueError
  end.

(** [v == z] for an [int] [z] *)
Definition py_eq_int (v : PyNum) (z : Z) : bool :=
  match py_float v with
  | Finite q => Qeq_bool q (inject_Z z)
  | _ => false
  end.

(** *** The ["%g" % v] conversion of Python

    Six significant digits, rounded half to even on the exact value,
    trailing zeros removed; exponent notation when the decimal exponent
    is below -4 or at least 6. *)

Fixpoint exp10_up (fuel : nat) (n d x : Z) : Z :=
  match fuel with
  | O => x
  | S f => if d * 10 <=? n then exp10_up f n (d * 10) (x + 1) else x
  end.

Fixpoint exp10_down (fuel : nat) (n d x : Z) : Z :=
  match fuel with
  | O => x
  | S f => if n <? d then exp10_down f (n * 10) d (x - 1) else x
  end.

(** the largest [x] with [10^x <= n/d], for positive [n] and [d] *)
Definition decimal_exponent (n d : Z) : Z :=
  let fuel := Z.to_nat (Z.log2 n + Z.log2 d + 2) in
  if d <=? n then exp10_up fuel n d 0 else exp10_down fuel n d 0.

Definition round_half_even (num den : Z) : Z :=
  let q := num / den in
  let r := num mod den in
  match 2 * r ?= den with
  | Lt => q
  | Gt => q + 1
  | Eq => if Z.even q then q else q + 1
  end.

Fixpoint strip_zeros_rev (l : list Ascii.ascii) : list Ascii.ascii :=
  match l with
  | c :: l' => if Ascii.eqb c "0"%char then strip_zeros_rev l' else l
  | [] => []
  end.

Definition strip_zeros (s : string) : string :=
  string_of_list_ascii
    (rev (strip_zeros_rev (rev (list_ascii_of_string s)))).

Fixpoint zeros (n : nat) : string :=
  match n with
  | O => ""
  | S n' => "0" ++ zeros n'
  end.

Definition with_point (int_part frac : string) : string :=
  if String.eqb frac "" then int_part else int_part ++ "." ++ frac.

Definition fmt_g_pos (n d : Z) : string :=
  let x0 := decimal_exponent n d in
  let m0 := if 0 <=? 5 - x0
            then round_half_even (n * 10 ^ (5 - x0)) d
            else round_half_even n (d * 10 ^ (x0 - 5)) in
  let '(m, x) := if m0 =? 1000000 then (100000, x0 + 1) else (m0, x0) in
  let digits := pretty m in
  if (x <? -4) || (6 <=? x) then
    with_point (String.substring 0 1 digits)
               (strip_zeros (String.substring 1 5 digits))
    ++ "e" ++ (if x <? 0 then "-" else "+")
    ++ (if Z.abs x <? 10 then "0" else "") ++ pretty (Z.abs x)
  else if 0 <=? x then
    with_point (String.substring 0 (Z.to_nat (x + 1)) digits)
               (strip_zeros (String.substring (Z.to_nat (x + 1))
                                              (Z.to_nat (5 - x)) digits))
  else
    "0." ++ zeros (Z.to_nat (- x - 1)) ++ strip_zeros digits.

Definition fmt_g (v : PyNum) : string :=
  match py_float v with
  | Finite q =>
      match Qnum q with
      | Z0 => "0"
      | Zpos p => fmt_g_pos (Zpos p) (Zpos (Qden q))
      | Zneg p => "-" ++ fmt_g_pos (Zpos p) (Zpos (Qden q))
      end
  | Inf false => "inf"
  | Inf true => "-inf"
  | Nan => "nan"
  end.

(** [str(z)] of a Python [int] *)
Definition py_str_int (z : Z) : string := pretty z.

(** ** The parent package [latexexpr_efficalc]

    The module imports the parent package, which is not among the
    sources.  What the module uses of it is rendered here from the
    spec's "lightweight LaTeX-oriented algebraic expression tree
    (variables, n-ary and binary/unary operations such as add, multiply,
    power, trig, log)" and from the use the module makes of it: the
    tags and tuples it dispatches on, the attributes it reads and
    writes, the functions and operators it calls. *)

Module latexexpr_efficalc.

(** Modelled from the spec: the operation tags of the parent package,
    one constructor for each constant the module names (lines 88-151,
    181-219); [_MAX] and [_MIN] are named by lines 93-94, and [_OTHER]
    stands for any tag the module never names. *)
Inductive OpTag :=
| _ADD | _MUL | _MAX | _MIN
| _SUB | _DIV | _DIV2 | _POW | _ROOT | _LOG
| _NONE | _NEG | _POS | _ABS | _SQR | _SQRT
| _SIN | _COS | _TAN | _SINH | _COSH | _TANH
| _EXP | _LN | _LOG10
| _RBRACKETS | _SBRACKETS | _CBRACKETS | _ABRACKETS
| _OTHER (tag : string).

#[global] Instance OpTag_eq_dec : EqDecision OpTag.
Proof. solve_decision. Defined.

(** Modelled from the spec: the tuple of the n-ary tags, those the
    branch of lines 88-96 tests for and those it leaves as TODO. *)
Definition _supportedOperationsN : list OpTag := [_ADD; _MUL; _MAX; _MIN].

(** Modelled from the spec: the tuple of the binary tags, those the
    branch of lines 97-115 tests for. *)
Definition _supportedOperations2 : list OpTag :=
  [_SUB; _DIV; _DIV2; _POW; _ROOT; _LOG].

(** Modelled from the spec: the tuple of the unary tags, those the
    branch of lines 116-155 tests for. *)
Definition _supportedOperations1 : list OpTag :=
  [_NONE; _NEG; _POS; _ABS; _SQR; _SQRT; _SIN; _COS; _TAN; _SINH; _COSH;
   _TANH; _EXP; _LN; _LOG10; _RBRACKETS; _SBRACKETS; _CBRACKETS;
   _ABRACKETS].

(** [t in tuple] *)
Definition tag_in (t : OpTag) (l : list OpTag) : bool :=
  bool_decide (t ∈ l).

(** Modelled from the spec: the three classes of the parent package,
    with the attributes the module reads and writes.  [Var] is the
    class [Variable] (a reserved word here): [name] and [value], the
    variable being symbolic ([is_symbolic()]) when the value is [None].
    [Operation] has [type], [args], [format] and [exponent] (lines
    593-596); [Expression] has [operation] (line 589) and its name. *)
#[warnings="-register-all"]
Inductive LExpr :=
| Var (name : string) (value : option PyNum)
| Operation (type : OpTag) (args : list LExpr)
            (format : string) (exponent : Z)
| Expression (name : string) (operation : LExpr).

(** Modelled from the spec: the [format] and [exponent] a new
    [Operation] starts with.  The constructor of the parent package
    sets them; they are parameters here. *)
Class Defaults := {
  default_format : string;
  default_exponent : Z
}.

Section Constructors.
Context `{Defaults}.

(** Modelled from the spec: [Operation(t, *args)] of the parent
    package. *)
Definition mk (t : OpTag) (args : list LExpr) : LExpr :=
  Operation t args default_format default_exponent.

(** Modelled from the spec: [Variable("%g" % v, v)], which is also what
    a Python number met by an overloaded operator of the parent package
    becomes (the shape line 75 of the module recognises). *)
Definition number (v : PyNum) : LExpr := Var (fmt_g v) (Some v).

(** Modelled from the spec: the functions [add], [mul], [sub],
    [brackets], [absolute], [sin], [cos], [tan], [sinh], [cosh], [tanh]
    and [ln] of the parent package, and its operators [/], [**] and
    unary [-], as the module calls them (lines 184-272): each builds
    the operation of its tag. *)
Definition add (args : list LExpr) : LExpr := mk _ADD args.
Definition mul (args : list LExpr) : LExpr := mk _MUL args.
Definition sub (a b : LExpr) : LExpr := mk _SUB [a; b].
Definition div (a b : LExpr) : LExpr := mk _DIV [a; b].
Definition pow (a b : LExpr) : LExpr := mk _POW [a; b].
Definition neg (a : LExpr) : LExpr := mk _NEG [a].
Definition brackets (a : LExpr) : LExpr := mk _RBRACKETS [a].
Definition absolute (a : LExpr) : LExpr := mk _ABS [a].
Definition sin (a : LExpr) : LExpr := mk _SIN [a].
Definition cos (a : LExpr) : LExpr := mk _COS [a].
Definition tan (a : LExpr) : LExpr := mk _TAN [a].
Definition sinh (a : LExpr) : LExpr := mk _SINH [a].
Definition cosh (a : LExpr) : LExpr := mk _COSH [a].
Definition tanh (a : LExpr) : LExpr := mk _TANH [a].
Definition ln (a : LExpr) : LExpr := mk _LN [a].
End Constructors.

End latexexpr_efficalc.

(** ** The external CAS [sympy]

    The CAS is not part of the repository.  A CAS expression is the term
    as the constructor calls issue it; the automatic canonicalisation the
    CAS performs on construction (sorting of arguments, folding of
    numbers) is not modelled. *)

Module sympy.

Inductive Func :=
| Abs | sin | cos | tan | sinh | cosh | tanh | exp | log.

#[warnings="-register-all"]
Inductive Expr :=
| Integer (z : Z)
| Float (q : Q)
| Rational (p q : Z)
| Symbol (name : string)
| Exp1
| Pi
| Infinity (negative : bool)
| NaN
| Add (args : list Expr)
| Mul (args : list Expr)
| Pow (base exponent : Expr)
| Apply (f : Func) (args : list Expr).

(** a Python [float] handed to the CAS *)
Definition of_float (f : pyfloat) : Expr :=
  match f with
  | Finite q => Float q
  | Inf negative => Infinity negative
  | Nan => NaN
  end.

(** [sympy.log(x, b)]: the two-argument call is the CAS's short-hand
    for [log(x) / log(b)] *)
Definition log2 (x b : Expr) : Expr :=
  Mul [Apply log [x]; Pow (Apply log [b]) (Integer (-1))].

(** The entry points of the CAS the module delegates to. *)
Inductive Entry :=
| simplify | expand | factor | collect | cancel | apart.

#[global] Instance Entry_eq_dec : EqDecision Entry.
Proof. solve_decision. Defined.

(** One call into the CAS: entry point, expression, the symbols given
    to [collect], and the keyword arguments handed through. *)
Record Call (Kw : Type) := mkCall {
  entry : Entry;
  expr : Expr;
  syms : option Expr;
  kw : Kw
}.
Arguments mkCall {Kw} _ _ _ _.
Arguments entry {Kw} _.
Arguments expr {Kw} _.
Arguments syms {Kw} _.
Arguments kw {Kw} _.

(** The CAS as a fixed function of the call, and the coercion
    ([sympy.sympify]) it applies to an argument that is not one of its
    own expressions. *)
Class Cas (Kw : Type) := {
  run : Call Kw -> result Expr;
  sympify : latexexpr_efficalc.LExpr -> result Expr
}.

End sympy.

Abbreviation LExpr := latexexpr_efficalc.LExpr.
Abbreviation VarMap := (gmap string latexexpr_efficalc.LExpr).

(** ** The two conversions *)

Section Conversions.
Context {Kw : Type} `{!sympy.Cas Kw} `{!latexexpr_efficalc.Defaults}.

(** the list comprehension of line 95: the arguments are converted from
    left to right, the dictionary shared between the calls *)
Definition convert_each
           (conv : LExpr -> VarMap -> result (sympy.Expr * VarMap))
  : list LExpr -> VarMap -> result (list sympy.Expr * VarMap) :=
  fix each l vm :=
    match l with
    | [] => Ok ([], vm)
    | a :: l' =>
        '(s, vm) ← conv a vm;
        '(ss, vm) ← each l' vm;
        Ok (s :: ss, vm)
    end.

(** *** [_operation_to_sympy] (lines 70-156)

    The dictionary [varMap] is mutated in place by the calls of the
    source and is threaded through here; a caller that passes no
    [varMap] starts from the empty one (lines 72-73).  The source's
    helper [_o2s] is the same call with the dictionary shared, so the
    recursive calls below return the updated dictionary along with the
    CAS expression.

    In the [_ROOT] case the source converts [-a[1]]: the negation
    operator of the parent package builds [Operation(_NEG, a[1])]
    (modelled, see [latexexpr_efficalc.neg]), whose conversion is the
    [_NEG] case; it is written out in place so that the recursion
    stays structural, and [o2s_ROOT_exponent] states the equation. *)
Fixpoint _operation_to_sympy (arg : LExpr) (varMap : VarMap)
         (substituteFloats : bool) {struct arg}
  : result (sympy.Expr * VarMap) :=
  let sf := substituteFloats in
  match arg with
  | latexexpr_efficalc.Var name value =>
      match value with
      | Some v =>
          if String.eqb name (fmt_g v) then
            z ← py_int v;
            if py_eq_int v z
            then Ok (sympy.Integer z, varMap)
            else Ok (sympy.of_float (py_float v), varMap)
          else if negb sf
          then Ok (sympy.Symbol name, <[name := arg]> varMap)
          else Ok (sympy.of_float (py_float v), varMap)
      | None => Ok (sympy.Symbol name, <[name := arg]> varMap)
      end
  | latexexpr_efficalc.Expression _ operation =>
      _operation_to_sympy operation varMap sf
  | latexexpr_efficalc.Operation t args _ _ =>
      if latexexpr_efficalc.tag_in t latexexpr_efficalc._supportedOperationsN
      then
        '(args', varMap) ←
          convert_each (fun a vm => _operation_to_sympy a vm sf) args varMap;
        match t with
        | latexexpr_efficalc._ADD => Ok (sympy.Add args', varMap)
        | latexexpr_efficalc._MUL => Ok (sympy.Mul args', varMap)
        | _ => Raise UnboundLocalError
        end
      else if latexexpr_efficalc.tag_in t
                latexexpr_efficalc._supportedOperations2
      then
        match args with
        | [] => Raise IndexError
        | a0 :: rest =>
            '(s0, varMap) ← _operation_to_sympy a0 varMap sf;
            match rest with
            | [] => Raise IndexError
            | a1 :: _ =>
                '(s1, varMap) ← _operation_to_sympy a1 varMap sf;
                match t with
                | latexexpr_efficalc._SUB =>
                    Ok (sympy.Add [s0; sympy.Mul [sympy.Integer (-1); s1]],
                        varMap)
                | latexexpr_efficalc._DIV | latexexpr_efficalc._DIV2 =>
                    Ok (sympy.Mul [s0; sympy.Pow s1 (sympy.Integer (-1))],
                        varMap)
                | latexexpr_efficalc._POW => Ok (sympy.Pow s0 s1, varMap)
                | latexexpr_efficalc._ROOT =>
                    Ok (sympy.Pow s0 (sympy.Mul [s1; sympy.Integer (-1)]),
                        varMap)
                | latexexpr_efficalc._LOG => Ok (sympy.log2 s0 s1, varMap)
                | _ => Raise UnboundLocalError
                end
            end
        end
      else if latexexpr_efficalc.tag_in t
                latexexpr_efficalc._supportedOperations1
      then
        match args with
        | [] => Raise IndexError
        | a :: _ =>
            let apply1 (f : sympy.Func) :=
              '(s, varMap) ← _operation_to_sympy a varMap sf;
              Ok (sympy.Apply f [s], varMap) in
            match t with
            | latexexpr_efficalc._NEG =>
                '(s, varMap) ← _operation_to_sympy a varMap sf;
                Ok (sympy.Mul [s; sympy.Integer (-1)], varMap)
            | latexexpr_efficalc._ABS => apply1 sympy.Abs
            | latexexpr_efficalc._SQR =>
                '(s, varMap) ← _operation_to_sympy a varMap sf;
                Ok (sympy.Pow s (sympy.Integer 2), varMap)
            | latexexpr_efficalc._SQRT =>
                '(s, varMap) ← _operation_to_sympy a varMap sf;
                Ok (sympy.Pow s (sympy.Integer (-2)), varMap)
            | latexexpr_efficalc._SIN => apply1 sympy.sin
            | latexexpr_efficalc._COS => apply1 sympy.cos
            | latexexpr_efficalc._TAN => apply1 sympy.tan
            | latexexpr_efficalc._SINH => apply1 sympy.sinh
            | latexexpr_efficalc._COSH => apply1 sympy.sinh
            | latexexpr_efficalc._TANH => apply1 sympy.sinh
            | latexexpr_efficalc._EXP => apply1 sympy.exp
            | latexexpr_efficalc._LN => apply1 sympy.log
            | latexexpr_efficalc._LOG10 =>
                (* [sympy.log(a, 10)]: [a] is handed over unconverted *)
                s ← sympy.sympify a;
                Ok (sympy.log2 s (sympy.Integer 10), varMap)
            | latexexpr_efficalc._NONE
            | latexexpr_efficalc._RBRACKETS
            | latexexpr_efficalc._SBRACKETS
            | latexexpr_efficalc._CBRACKETS
            | latexexpr_efficalc._ABRACKETS
            | latexexpr_efficalc._POS =>
                _operation_to_sympy a varMap sf
            | _ => Raise UnboundLocalError
            end
        end
      else Raise LaTeXExpressionError
  end.

(** [_o2s] (lines 159-160): the first component of the conversion *)
Definition _o2s (arg : LExpr) (varMap : VarMap) (substituteFloats : bool)
  : result sympy.Expr :=
  fst <$> _operation_to_sympy arg varMap substituteFloats.

(** *** [_sympy2operation] (lines 163-275) *)

(** the tag the loops of lines 210-218 and 237-245 read off an
    argument; an [Expression] whose [operation] has no [type] raises *)
Definition type_of (a : LExpr) : result (option latexexpr_efficalc.OpTag) :=
  match a with
  | latexexpr_efficalc.Operation t _ _ _ => Ok (Some t)
  | latexexpr_efficalc.Expression _ (latexexpr_efficalc.Operation t _ _ _) =>
      Ok (Some t)
  | latexexpr_efficalc.Expression _ _ => Raise AttributeError
  | latexexpr_efficalc.Var _ _ => Ok None
  end.

(** [if t in (_ADD, _SUB): args[i] = brackets(a)] *)
Definition bracket_sum (a : LExpr) : result LExpr :=
  t ← type_of a;
  match t with
  | Some latexexpr_efficalc._ADD | Some latexexpr_efficalc._SUB =>
      Ok (latexexpr_efficalc.brackets a)
  | _ => Ok a
  end.

Fixpoint bracket_sums (args : list LExpr) : result (list LExpr) :=
  match args with
  | [] => Ok []
  | a :: l =>
      a' ← bracket_sum a;
      l' ← bracket_sums l;
      Ok (a' :: l')
  end.

(** [isinstance(a, Variable) and a.name == n] *)
Definition is_variable_named (n : string) (a : LExpr) : bool :=
  match a with
  | latexexpr_efficalc.Var name _ => String.eqb name n
  | _ => false
  end.

(** lines 177-185 *)
Definition back_Add (args : list LExpr) : result LExpr :=
  match args with
  | [a0; latexexpr_efficalc.Operation latexexpr_efficalc._NEG nargs _ _] =>
      match nargs with
      | a1 :: _ => Ok (latexexpr_efficalc.sub a0 a1)
      | [] => Raise IndexError
      end
  | _ => Ok (latexexpr_efficalc.add args)
  end.

(** lines 198-208: the [elif] of the [Mul] branch.  It repeats the
    test [len(args) == 2] of the [if] it belongs to, so it is never
    entered ([back_Mul_elif_dead]).  [None] is the fall-through to the
    loop of line 209. *)
Definition back_Mul_elif (args : list LExpr) : option (result LExpr) :=
  match args with
  | [a0; latexexpr_efficalc.Operation latexexpr_efficalc._DIV dargs _ _] =>
      match dargs with
      | [] => Some (Raise IndexError)
      | latexexpr_efficalc.Var _ value :: drest =>
          if match value with
             | Some v => py_eq_int v 1
             | None => false
             end
          then match drest with
               | d1 :: _ => Some (Ok (latexexpr_efficalc.div a0 d1))
               | [] => Some (Raise IndexError)
               end
          else match a0 with
               | latexexpr_efficalc.Operation t _ _ _ =>
                   if bool_decide (t = latexexpr_efficalc._LN)
                   then Some (Raise AttributeError)
                   else None
               | _ => Some (Raise AttributeError)
               end
      | _ :: _ => Some (Raise AttributeError)
      end
  | _ => None
  end.

(** lines 186-221 *)
Definition back_Mul (args : list LExpr) : result LExpr :=
  let loop :=
    args' ← bracket_sums args;
    Ok (latexexpr_efficalc.mul args') in
  if Nat.eqb (length args) 2 then
    match args with
    | [a0; a1] =>
        if is_variable_named "-1" a0 then Ok (latexexpr_efficalc.neg a1)
        else if is_variable_named "-1" a1
             then Ok (latexexpr_efficalc.neg a0)
             else loop
    | _ => loop
    end
  else if Nat.eqb (length args) 2 then
    match back_Mul_elif args with
    | Some r => r
    | None => loop
    end
  else loop.

(** lines 222-248; a power of the CAS always has two arguments *)
Definition back_Pow (a0 a1 : LExpr) : result LExpr :=
  let n := match a1 with
           | latexexpr_efficalc.Var name _ => Some name
           | _ => None
           end in
  if bool_decide (n = Some "-1")
  then Ok (latexexpr_efficalc.div
             (latexexpr_efficalc.number (PyFloat (Finite 1))) a0)
  else if bool_decide (n = Some "2")
  then Ok (latexexpr_efficalc.pow a0
             (latexexpr_efficalc.number (PyInt 2)))
  else if bool_decide (n = Some "0.5")
  then Raise TypeError  (* [_SQRT(args[1])]: the tag is not a function *)
  else
    a0' ← bracket_sum a0;
    Ok (latexexpr_efficalc.pow a0' a1).

(** lines 249-261: the table of one-argument functions; [exp] has no
    row *)
Definition back_table (f : sympy.Func) : option (LExpr -> LExpr) :=
  match f with
  | sympy.Abs => Some latexexpr_efficalc.absolute
  | sympy.sin => Some latexexpr_efficalc.sin
  | sympy.cos => Some latexexpr_efficalc.cos
  | sympy.tan => Some latexexpr_efficalc.tan
  | sympy.sinh => Some latexexpr_efficalc.sinh
  | sympy.cosh => Some latexexpr_efficalc.cosh
  | sympy.tanh => Some latexexpr_efficalc.tanh
  | sympy.log => Some latexexpr_efficalc.ln
  | sympy.exp => None
  end.

Definition back_Apply (f : sympy.Func) (args : list LExpr) : result LExpr :=
  match back_table f with
  | Some l =>
      match args with
      | a :: _ => Ok (l a)
      | [] => Raise IndexError
      end
  | None => Raise LaTeXExpressionError
  end.

(** lines 262-272 *)
Definition back_Rational (p q : Z) : LExpr :=
  let var (z : Z) := latexexpr_efficalc.Var (py_str_int z) (Some (PyInt z)) in
  if 0 <? p
  then latexexpr_efficalc.div (var p) (var q)
  else latexexpr_efficalc.neg (latexexpr_efficalc.div (var (- p)) (var q)).

(** The tests of lines 165-168 sit under [is_Float or is_Integer],
    which no [Exp1] or [Pi] passes: the name is always the ["%g"]
    form, and the new variable is the one [latexexpr_efficalc.number]
    builds.  The constants [Exp1], [Pi], the infinities and [NaN] have
    no arguments and match no later test. *)
Fixpoint _sympy2operation (sympyExpr : sympy.Expr) (varMap : VarMap)
  {struct sympyExpr} : result LExpr :=
  let each := mapM (fun a => _sympy2operation a varMap) in
  match sympyExpr with
  | sympy.Float q =>
      Ok (latexexpr_efficalc.number (PyFloat (Finite q)))
  | sympy.Integer z =>
      Ok (latexexpr_efficalc.number (PyFloat (Finite (inject_Z z))))
  | sympy.Symbol name =>
      match varMap !! name with
      | Some v => Ok v
      | None => Raise KeyError
      end
  | sympy.Add l => args ← each l; back_Add args
  | sympy.Mul l => args ← each l; back_Mul args
  | sympy.Pow b e =>
      a0 ← _sympy2operation b varMap;
      a1 ← _sympy2operation e varMap;
      back_Pow a0 a1
  | sympy.Apply f l => args ← each l; back_Apply f args
  | sympy.Rational p q => Ok (back_Rational p q)
  | sympy.Exp1 | sympy.Pi | sympy.Infinity _ | sympy.NaN =>
      Raise LaTeXExpressionError
  end.

(** line 278 *)
Definition _s2o := _sympy2operation.

End Conversions.

(** ** Objects, heap and the interpreter monad

    The objects a caller passes to the module or calls a method on are
    held by reference.  The heap is a list of objects, a location is an
    index into it; objects are never freed.  The sub-structure of an
    expression tree is held by value: no function of the module writes
    to an object below the one it is given. *)

Inductive PyObj :=
| Obj (e : LExpr)
| ObjList (l : list PyObj)
| ObjOther (cls : string).

Abbreviation loc := nat.

Section Interpreter.
Context {Kw : Type}.

(** The heap, and the calls made into the CAS so far (oldest first). *)
Record State := mkState {
  heap : list PyObj;
  trace : list (sympy.Call Kw)
}.

Definition M (A : Type) : Type := State -> result A * State.

#[global] Instance M_ret : MRet M := fun A a σ => (Ok a, σ).

#[global] Instance M_bind : MBind M := fun A B k m σ =>
  match m σ with
  | (Ok a, σ') => k a σ'
  | (Raise e, σ') => (Raise e, σ')
  end.

Definition raise {A} (e : PyExn) : M A := fun σ => (Raise e, σ).

Definition lift {A} (r : result A) : M A := fun σ => (r, σ).

(** a location outside the heap denotes no object; Python has no such
    reference, [ReferenceError] marks it *)
Definition deref (l : loc) : M PyObj := fun σ =>
  match heap σ !! l with
  | Some o => (Ok o, σ)
  | None => (Raise ReferenceError, σ)
  end.

Definition alloc (o : PyObj) : M loc := fun σ =>
  (Ok (length (heap σ)), mkState (heap σ ++ [o]) (trace σ)).

Definition store (l : loc) (o : PyObj) : M unit := fun σ =>
  (Ok tt, mkState (<[l := o]> (heap σ)) (trace σ)).

(** a call into the CAS: recorded, then answered by the CAS *)
Definition cas_call `{!sympy.Cas Kw} (c : sympy.Call Kw) : M sympy.Expr :=
  fun σ => (sympy.run c, mkState (heap σ) (trace σ ++ [c])).

End Interpreter.
Arguments State Kw : clear implicits.
Arguments M Kw A : clear implicits.

(** ** The six operations: function forms and method forms *)

Section Wrappers.
Context {Kw : Type} `{!sympy.Cas Kw} `{!latexexpr_efficalc.Defaults}.

(** lines 588-589.  The method form only calls it on an
    [Expression]; Python would add the attribute to any other object,
    which is outside the model and marked by [AttributeError]. *)
Definition _setOperation (expr : loc) (operation : LExpr) : M Kw unit :=
  o ← deref expr;
  match o with
  | Obj (latexexpr_efficalc.Expression name _) =>
      store expr (Obj (latexexpr_efficalc.Expression name operation))
  | _ => raise AttributeError
  end.

(** lines 592-596.  Reading [o2.type] comes first: only an
    [Operation] has the attribute (the module itself guards every
    other read of [type] by [isinstance(_, Operation)], lines 180,
    211 and 238).  The method form only calls it with an [Operation]
    for [o1]; any other receiver is outside the model and marked by
    [AttributeError]. *)
Definition _copyOperation (o1 o2 : loc) : M Kw unit :=
  x2 ← deref o2;
  match x2 with
  | Obj (latexexpr_efficalc.Operation type args format exponent) =>
      x1 ← deref o1;
      match x1 with
      | Obj (latexexpr_efficalc.Operation _ _ _ _) =>
          store o1 (Obj (latexexpr_efficalc.Operation
                           type args format exponent))
      | _ => raise AttributeError
      end
  | _ => raise AttributeError
  end.

(** lines 465-474 of [collect].  For a [syms] that is no [Variable]
    the test calls [isinstance] with a single argument (a generator
    expression), which raises [TypeError] for every such [syms]; the
    [LaTeXExpressionError] of line 469 and the list comprehension of
    line 473 are never reached. *)
Definition collect_syms (syms : PyObj) : result sympy.Expr :=
  match syms with
  | Obj (latexexpr_efficalc.Var name _) => Ok (sympy.Symbol name)
  | _ => Raise TypeError
  end.

(** The [Operation] branch shared by the six functions (lines 323-326,
    371-374, 418-421, 463-476, 523-526, 565-568): convert with a fresh
    [varMap], call the CAS, convert back.  [syms] is present for
    [collect] only. *)
Definition delegate (e : sympy.Entry) (syms : option PyObj)
           (arg : LExpr) (substituteFloats : bool) (kw : Kw) : M Kw LExpr :=
  '(s, lVars) ← lift (_operation_to_sympy arg ∅ substituteFloats);
  syms' ← lift (match syms with
                | Some o => Some <$> collect_syms o
                | None => Ok None
                end);
  s ← cas_call (sympy.mkCall e s syms' kw);
  lift (_sympy2operation s lVars).

(** A function form applied to an object given by its content, as the
    method form of an [Expression] applies it to its [operation]
    field.  The copy made for an [Expression] (lines 320-322) is the
    returned value. *)
Fixpoint wrapper_on (e : sympy.Entry) (syms : option PyObj)
         (substituteFloats : bool) (kw : Kw) (arg : LExpr) {struct arg}
  : M Kw LExpr :=
  match arg with
  | latexexpr_efficalc.Var _ _ => mret arg
  | latexexpr_efficalc.Expression name operation =>
      r ← wrapper_on e syms substituteFloats kw operation;
      mret (latexexpr_efficalc.Expression name r)
  | latexexpr_efficalc.Operation _ _ _ _ =>
      delegate e syms arg substituteFloats kw
  end.

(** [Expression.simplify] and its five siblings (lines 330-334 ...):
    [_setOperation(self, f(self.operation, ...))] *)
Definition Expression_method (e : sympy.Entry) (syms : option PyObj)
           (self : loc) (substituteFloats : bool) (kw : Kw) : M Kw unit :=
  o ← deref self;
  match o with
  | Obj (latexexpr_efficalc.Expression _ operation) =>
      r ← wrapper_on e syms substituteFloats kw operation;
      _setOperation self r
  | _ => raise AttributeError
  end.

(** The function form on a reference (lines 317-327 ...): a
    [Variable] is returned as it is, an [Expression] is copied and the
    method form is run on the copy, an [Operation] is delegated, any
    other object raises [TypeError].  The result of the delegation is
    placed at a new location, also when it is one of the variables of
    the argument (sub-structure is held by value, its identity is not
    tracked). *)
Definition wrapper (e : sympy.Entry) (syms : option PyObj)
           (arg : loc) (substituteFloats : bool) (kw : Kw) : M Kw loc :=
  o ← deref arg;
  match o with
  | Obj (latexexpr_efficalc.Var _ _) => mret arg
  | Obj (latexexpr_efficalc.Expression _ _) =>
      ret ← alloc o;
      _ ← Expression_method e syms ret substituteFloats kw;
      mret ret
  | Obj (latexexpr_efficalc.Operation _ _ _ _ as op) =>
      r ← delegate e syms op substituteFloats kw;
      alloc (Obj r)
  | _ => raise TypeError
  end.

(** [Operation.simplify] and its five siblings (lines 336-340 ...):
    [_copyOperation(self, f(self, ...))] *)
Definition Operation_method (e : sympy.Entry) (syms : option PyObj)
           (self : loc) (substituteFloats : bool) (kw : Kw) : M Kw unit :=
  r ← wrapper e syms self substituteFloats kw;
  _copyOperation self r.

Definition simplify := wrapper sympy.simplify None.
Definition expand := wrapper sympy.expand None.
Definition factor := wrapper sympy.factor None.
Definition collect (arg : loc) (syms : PyObj) :=
  wrapper sympy.collect (Some syms) arg.
Definition cancel := wrapper sympy.cancel None.
Definition apart := wrapper sympy.apart None.

Definition Expression_simplify := Expression_method sympy.simplify None.
Definition Expression_expand := Expression_method sympy.expand None.
Definition Expression_factor := Expression_method sympy.factor None.
Definition Expression_collect (self : loc) (syms : PyObj) :=
  Expression_method sympy.collect (Some syms) self.
Definition Expression_cancel := Expression_method sympy.cancel None.
Definition Expression_apart := Expression_method sympy.apart None.

Definition Operation_simplify := Operation_method sympy.simplify None.
Definition Operation_expand := Operation_method sympy.expand None.
Definition Operation_factor := Operation_method sympy.factor None.
Definition Operation_collect (self : loc) (syms : PyObj) :=
  Operation_method sympy.collect (Some syms) self.
Definition Operation_cancel := Operation_method sympy.cancel None.
Definition Operation_apart := Operation_method sympy.apart None.

End Wrappers.

(** ** Values of expression trees

    Neither evaluator is part of the sources: the parent package
    computes the result of an expression tree, the CAS the value of its
    expression.  Both are rendered over the real numbers. *)

(** [x ** y] over the reals: the integer power when the exponent is an
    integer, the exponential of [y * ln x] otherwise *)
Definition Rpow (x y : R) : R :=
  if Req_dec_T y (IZR (Int_part y))
  then powerRZ x (Int_part y)
  else Rpower x y.

(** the real a Python number denotes; an infinity or a NaN denotes
    none, 0 stands for it *)
Definition num_value (v : PyNum) : R :=
  match py_float v with
  | Finite q => Q2R q
  | _ => 0%R
  end.

Definition Rsum (l : list R) : R := fold_right Rplus 0%R l.
Definition Rprod (l : list R) : R := fold_right Rmult 1%R l.
Definition Rmaximum (l : list R) : R :=
  match l with
  | [] => 0%R
  | x :: l' => fold_right Rmax x l'
  end.
Definition Rminimum (l : list R) : R :=
  match l with
  | [] => 0%R
  | x :: l' => fold_right Rmin x l'
  end.

Section Values.
(** the assignment of values to the symbolic variables *)
Variable env : string -> R.

(** Modelled from the spec: the value of a tree of the parent package,
    "variables, n-ary and binary/unary operations such as add,
    multiply, power, trig, log", each tag with its mathematical
    meaning; [_ROOT] takes the radicand first and the degree second,
    [_LOG] the argument first and the base second.  A tree with too
    few arguments has the value 0. *)
Fixpoint leval (e : LExpr) : R :=
  match e with
  | latexexpr_efficalc.Var name None => env name
  | latexexpr_efficalc.Var _ (Some v) => num_value v
  | latexexpr_efficalc.Expression _ operation => leval operation
  | latexexpr_efficalc.Operation t args _ _ =>
      let vs := List.map leval args in
      let v0 := nth 0 vs 0%R in
      let v1 := nth 1 vs 0%R in
      match t with
      | latexexpr_efficalc._ADD => Rsum vs
      | latexexpr_efficalc._MUL => Rprod vs
      | latexexpr_efficalc._MAX => Rmaximum vs
      | latexexpr_efficalc._MIN => Rminimum vs
      | latexexpr_efficalc._SUB => (v0 - v1)%R
      | latexexpr_efficalc._DIV | latexexpr_efficalc._DIV2 => (v0 / v1)%R
      | latexexpr_efficalc._POW => Rpow v0 v1
      | latexexpr_efficalc._ROOT => Rpow v0 (1 / v1)%R
      | latexexpr_efficalc._LOG => (ln v0 / ln v1)%R
      | latexexpr_efficalc._NONE | latexexpr_efficalc._POS
      | latexexpr_efficalc._RBRACKETS | latexexpr_efficalc._SBRACKETS
      | latexexpr_efficalc._CBRACKETS | latexexpr_efficalc._ABRACKETS => v0
      | latexexpr_efficalc._NEG => (- v0)%R
      | latexexpr_efficalc._ABS => Rabs v0
      | latexexpr_efficalc._SQR => (v0 * v0)%R
      | latexexpr_efficalc._SQRT => sqrt v0
      | latexexpr_efficalc._SIN => sin v0
      | latexexpr_efficalc._COS => cos v0
      | latexexpr_efficalc._TAN => tan v0
      | latexexpr_efficalc._SINH => sinh v0
      | latexexpr_efficalc._COSH => cosh v0
      | latexexpr_efficalc._TANH => tanh v0
      | latexexpr_efficalc._EXP => exp v0
      | latexexpr_efficalc._LN => ln v0
      | latexexpr_efficalc._LOG10 => (ln v0 / ln 10)%R
      | latexexpr_efficalc._OTHER _ => 0%R
      end
  end.

(** the value of a one-argument function of the CAS *)
Definition func_value (f : sympy.Func) (x : R) : R :=
  match f with
  | sympy.Abs => Rabs x
  | sympy.sin => sin x
  | sympy.cos => cos x
  | sympy.tan => tan x
  | sympy.sinh => sinh x
  | sympy.cosh => cosh x
  | sympy.tanh => tanh x
  | sympy.exp => exp x
  | sympy.log => ln x
  end.

(** Modelled from the spec: the value of "a full
    computer-algebra-system expression tree" *)
Fixpoint seval (s : sympy.Expr) : R :=
  match s with
  | sympy.Integer z => IZR z
  | sympy.Float q => Q2R q
  | sympy.Rational p q => (IZR p / IZR q)%R
  | sympy.Symbol name => env name
  | sympy.Exp1 => exp 1
  | sympy.Pi => PI
  | sympy.Infinity _ | sympy.NaN => 0%R
  | sympy.Add args => Rsum (List.map seval args)
  | sympy.Mul args => Rprod (List.map seval args)
  | sympy.Pow b e => Rpow (seval b) (seval e)
  | sympy.Apply f args => func_value f (nth 0 (List.map seval args) 0%R)
  end.

End Values.

(** ** The six operations as the module offers them

    Each operation comes as a function and as a method of [Expression]
    and of [Operation] (lines 281-582). *)

Section Operations.
Context {Kw : Type} `{!sympy.Cas Kw} `{!latexexpr_efficalc.Defaults}.

Record operation := mkOperation {
  fn : loc -> bool -> Kw -> M Kw loc;
  fn_on : bool -> Kw -> LExpr -> M Kw LExpr;
  Expression_fn : loc -> bool -> Kw -> M Kw unit;
  Operation_fn : loc -> bool -> Kw -> M Kw unit
}.

Definition operations (syms : PyObj) : list operation :=
  [ mkOperation simplify (wrapper_on sympy.simplify None)
                Expression_simplify Operation_simplify;
    mkOperation expand (wrapper_on sympy.expand None)
                Expression_expand Operation_expand;
    mkOperation factor (wrapper_on sympy.factor None)
                Expression_factor Operation_factor;
    mkOperation (fun arg => collect arg syms)
                (wrapper_on sympy.collect (Some syms))
                (fun self => Expression_collect self syms)
                (fun self => Operation_collect self syms);
    mkOperation cancel (wrapper_on sympy.cancel None)
                Expression_cancel Operation_cancel;
    mkOperation apart (wrapper_on sympy.apart None)
                Expression_apart Operation_apart ].

(** the state reached from [σ] by a computation that has left the heap
    alone and has made the calls [calls] *)
Definition called (σ : State Kw) (calls : list (sympy.Call Kw)) : State Kw :=
  mkState (heap σ) (trace σ ++ calls).

(** the calls a computation run in [σ] has added to the trace *)
Definition calls_of {A} (m : M Kw A) (σ : State Kw) : list (sympy.Call Kw) :=
  drop (length (trace σ)) (trace (m σ).2).

(** [e] is an entry point of the CAS that the dispatch layer invokes:
    some call of one of the six functions reaches it *)
Definition invoked (e : sympy.Entry) : Prop :=
  exists syms o arg sf kw σ c,
    o ∈ operations syms /\ c ∈ calls_of (fn o arg sf kw) σ /\ sympy.entry c = e.

(** forward conversion with a fresh [varMap], then back with the
    [varMap] the forward conversion returns *)
Definition roundtrip (t : LExpr) (substituteFloats : bool) : result LExpr :=
  '(s, varMap) ← _operation_to_sympy t ∅ substituteFloats;
  _sympy2operation s varMap.

End Operations.








(** ** Instances for running the model on examples *)

Definition example_defaults : latexexpr_efficalc.Defaults :=
  {| latexexpr_efficalc.default_format := "%.2f";
     latexexpr_efficalc.default_exponent := 0 |}.

(** a CAS that answers every call with the expression it was given and
    refuses to coerce foreign objects *)
Definition echo_cas : sympy.Cas unit :=
  {| sympy.run c := Ok (sympy.expr c);
     sympy.sympify _ := Raise SympifyError |}.

(** an induction principle that reaches the arguments of an operation *)
Section LExpr_induction.
Variable P : LExpr -> Prop.
Hypothesis HVar : forall name value, P (latexexpr_efficalc.Var name value).
Hypothesis HOp : forall t args format exponent,
    Forall P args -> P (latexexpr_efficalc.Operation t args format exponent).
Hypothesis HExpr : forall name operation,
    P operation -> P (latexexpr_efficalc.Expression name operation).

Fixpoint LExpr_nested_ind (e : LExpr) : P e :=
  match e with
  | latexexpr_efficalc.Var name value => HVar name value
  | latexexpr_efficalc.Operation t args format exponent =>
      HOp t args format exponent
        ((fix all (l : list LExpr) : Forall P l :=
            match l with
            | [] => List.Forall_nil P
            | a :: l' => List.Forall_cons P a l' (LExpr_nested_ind a) (all l')
            end) args)
  | latexexpr_efficalc.Expression name operation =>
      HExpr name operation (LExpr_nested_ind operation)
  end.
End LExpr_induction.

(** ** Where the conversions return, and what they keep

    Predicates on trees that the statements about the two conversions
    are phrased with.  None of them is part of the sources. *)

Section Domains.
Context {Kw : Type} `{!sympy.Cas Kw}.



End Domains.


(** every entry of [varMap] is a [Variable] filed under its own name,
    as line 81 files it *)
Definition well_named (vm : VarMap) : Prop :=
  forall k v, vm !! k = Some v ->
    exists value, v = latexexpr_efficalc.Var k value.

(** every key of [vm] is a key of [vm'] *)
Definition keys_kept (vm vm' : VarMap) : Prop :=
  forall k, is_Some (vm !! k) -> is_Some (vm' !! k).

(** every symbol of the CAS expression is a key of [varMap] *)
Fixpoint registered (vm : VarMap) (s : sympy.Expr) : bool :=
  match s with
  | sympy.Symbol name =>
      match vm !! name with
      | Some _ => true
      | None => false
      end
  | sympy.Add l | sympy.Mul l | sympy.Apply _ l => forallb (registered vm) l
  | sympy.Pow b e => registered vm b && registered vm e
  | _ => true
  end.

(** no operation of the tree is a [_LOG10] *)
Fixpoint no_log10 (e : LExpr) : bool :=
  match e with
  | latexexpr_efficalc.Var _ _ => true
  | latexexpr_efficalc.Expression _ operation => no_log10 operation
  | latexexpr_efficalc.Operation t args _ _ =>
      negb (bool_decide (t = latexexpr_efficalc._LOG10))
      && forallb no_log10 args
  end.

(** [Q] holds of the name and the value of every variable of the tree *)
Fixpoint Forall_vars (Q : string -> option PyNum -> Prop) (e : LExpr) : Prop :=
  match e with
  | latexexpr_efficalc.Var name value => Q name value
  | latexexpr_efficalc.Expression _ operation => Forall_vars Q operation
  | latexexpr_efficalc.Operation _ args _ _ =>
      (fix all (l : list LExpr) : Prop :=
         match l with
         | [] => True
         | a :: l' => Forall_vars Q a /\ all l'
         end) args
  end.

(** an induction principle that reaches the arguments of a CAS
    expression *)
Section Expr_induction.
Variable P : sympy.Expr -> Prop.
Hypothesis HInteger : forall z, P (sympy.Integer z).
Hypothesis HFloat : forall q, P (sympy.Float q).
Hypothesis HRational : forall p q, P (sympy.Rational p q).
Hypothesis HSymbol : forall name, P (sympy.Symbol name).
Hypothesis HExp1 : P sympy.Exp1.
Hypothesis HPi : P sympy.Pi.
Hypothesis HInfinity : forall negative, P (sympy.Infinity negative).
Hypothesis HNaN : P sympy.NaN.
Hypothesis HAdd : forall l, Forall P l -> P (sympy.Add l).
Hypothesis HMul : forall l, Forall P l -> P (sympy.Mul l).
Hypothesis HPow : forall b e, P b -> P e -> P (sympy.Pow b e).
Hypothesis HApply : forall f l, Forall P l -> P (sympy.Apply f l).

Fixpoint Expr_nested_ind (s : sympy.Expr) : P s :=
  let all := fix all (l : list sympy.Expr) : Forall P l :=
               match l with
               | [] => List.Forall_nil P
               | a :: l' => List.Forall_cons P a l' (Expr_nested_ind a) (all l')
               end in
  match s with
  | sympy.Integer z => HInteger z
  | sympy.Float q => HFloat q
  | sympy.Rational p q => HRational p q
  | sympy.Symbol name => HSymbol name
  | sympy.Exp1 => HExp1
  | sympy.Pi => HPi
  | sympy.Infinity negative => HInfinity negative
  | sympy.NaN => HNaN
  | sympy.Add l => HAdd l (all l)
  | sympy.Mul l => HMul l (all l)
  | sympy.Pow b e => HPow b e (Expr_nested_ind b) (Expr_nested_ind e)
  | sympy.Apply f l => HApply f l (all l)
  end.
End Expr_induction.

(** the name the back-conversion finds on the converted exponent of a
    power (lines 223-235): that of a number is its ["%g"] form, that of
    a symbol the name of its variable; an operation has none *)
Definition exponent_name (e : sympy.Expr) : option string :=
  match e with
  | sympy.Float q => Some (fmt_g (PyFloat (Finite q)))
  | sympy.Integer z => Some (fmt_g (PyFloat (Finite (inject_Z z))))
  | sympy.Symbol k => Some k
  | _ => None
  end.

(** [len(args) > 0] *)
Definition nonempty {A} (l : list A) : bool :=
  match l with
  | [] => false
  | _ :: _ => true
  end.

(** The CAS expressions whose form the back-conversion has a branch
    for (lines 164-275): no constant [E] or [pi], no infinity, no NaN,
    no exponential, no function without an argument, and no power whose
    exponent is named [0.5]. *)
Fixpoint back_shape (s : sympy.Expr) : bool :=
  match s with
  | sympy.Integer _ | sympy.Float _ | sympy.Rational _ _
  | sympy.Symbol _ => true
  | sympy.Exp1 | sympy.Pi | sympy.Infinity _ | sympy.NaN => false
  | sympy.Add l | sympy.Mul l => forallb back_shape l
  | sympy.Pow b e =>
      back_shape b && back_shape e
      && negb (bool_decide (exponent_name e = Some "0.5"))
  | sympy.Apply f l =>
      forallb back_shape l
      && match f with
         | sympy.exp => false
         | _ => true
         end
      && nonempty l
  end.

(** an operation that has an argument if it is a negation *)
Definition compound (r : LExpr) : bool :=
  match r with
  | latexexpr_efficalc.Operation t args _ _ =>
      negb (bool_decide (t = latexexpr_efficalc._NEG)) || nonempty args
  | _ => false
  end.

(** a variable, or an operation that has an argument if it is a
    negation: what the back-conversion builds *)
Definition plain (r : LExpr) : bool :=
  match r with
  | latexexpr_efficalc.Var _ _ => true
  | _ => compound r
  end.



(** every entry of [varMap] is a [Variable] filed under its own name,
    and the assignment [env] gives its name the value of the variable *)
Definition respects (env : string -> R) (vm : VarMap) : Prop :=
  forall k v, vm !! k = Some v ->
    (exists value, v = latexexpr_efficalc.Var k value) /\ leval env v = env k.

(** *** The trees that survive the round trip *)

Section Round_trip_domain.
Context {Kw : Type} `{!sympy.Cas Kw}.







End Round_trip_domain.

(** the forward conversion turns the variable into a symbol (lines
    79-82): it is symbolic, or it is not named after its value and
    [substituteFloats] is off *)
Definition becomes_symbol (sf : bool) (name : string) (value : option PyNum)
  : bool :=
  match value with
  | Some v => negb (String.eqb name (fmt_g v)) && negb sf
  | None => true
  end.

(** *** Statements about one step of a conversion *)

(** what a step of the forward conversion keeps of [varMap]: the
    property [P] of its entries and its keys; and, if [good], that the
    symbols of the expression it returns are keys *)
Definition keeps (P : string -> LExpr -> Prop) (good : bool) (vm : VarMap)
           (r : result (sympy.Expr * VarMap)) : Prop :=
  match r with
  | Ok (s, vm') =>
      map_Forall P vm' /\ keys_kept vm vm' /\
      (good = true -> registered vm' s = true)
  | Raise _ => True
  end.

(** the outcome of the back-conversion, by the form of the CAS
    expression; an exception is a [KeyError] only if a symbol is
    missing from [varMap] *)
Definition back_outcome (vm : VarMap) (s : sympy.Expr) (r : result LExpr)
  : Prop :=
  match r with
  | Ok r =>
      registered vm s && back_shape s = true /\ plain r = true /\
      (match r with
       | latexexpr_efficalc.Var name _ => Some name
       | _ => None
       end) = exponent_name s
  | Raise ex =>
      registered vm s && back_shape s = false /\
      (ex = KeyError -> registered vm s = false)
  end.




Ltac eval_tags_goal :=
  repeat match goal with
    | |- context [latexexpr_efficalc.tag_in ?t ?l] =>
        let b := eval vm_compute in (latexexpr_efficalc.tag_in t l) in
        change (latexexpr_efficalc.tag_in t l) with b
    end.


(** *** Examples *)

(** the tree [x * 2 - sin(y)], all of whose variables have the value 2
    under the assignment below *)
Definition example_tree : LExpr :=
  latexexpr_efficalc.Operation latexexpr_efficalc._SUB
    [latexexpr_efficalc.Operation latexexpr_efficalc._MUL
       [latexexpr_efficalc.Var "x" None;
        latexexpr_efficalc.number (PyInt 2)] "%.2f" 0;
     latexexpr_efficalc.Operation latexexpr_efficalc._SIN
       [latexexpr_efficalc.Var "y" None] "%.2f" 0] "%.2f" 0.

Definition example_env : string -> R := fun _ => num_value (PyInt 2).

Definition example_varMap : VarMap :=
  {[ "x" := latexexpr_efficalc.Var "x" None ]}.


(** * Properties *)

(** ** The interpreter *)

Section Interpreter_facts.
Context {Kw : Type} `{!sympy.Cas Kw} `{!latexexpr_efficalc.Defaults}.
Implicit Types (σ : State Kw) (e : sympy.Entry) (osyms : option PyObj).

Lemma bind_run {A B} (m : M Kw A) (k : A -> M Kw B) σ :
  (m ≫= k) σ = match m σ with
               | (Ok a, σ') => k a σ'
               | (Raise ex, σ') => (Raise ex, σ')
               end.
Proof. reflexivity. Qed.

Lemma called_nil σ : called σ [] = σ.
Proof. destruct σ. unfold called. simpl. by rewrite app_nil_r. Qed.

Lemma calls_of_called {A} (m : M Kw A) σ r calls :
  m σ = (r, called σ calls) -> calls_of m σ = calls.
Proof.
  intros Hm. unfold calls_of. rewrite Hm. simpl.
  by rewrite drop_app_length.
Qed.

(** [delegate] reads nothing of the state and leaves the heap alone:
    it is the composition of the forward conversion, the call into the
    CAS and the back-conversion *)
Lemma delegate_run e osyms arg sf kw σ :
  delegate e osyms arg sf kw σ =
    match _operation_to_sympy arg ∅ sf with
    | Raise ex => (Raise ex, σ)
    | Ok (s, lVars) =>
        match (match osyms with
               | Some o => Some <$> collect_syms o
               | None => Ok None
               end) with
        | Raise ex => (Raise ex, σ)
        | Ok syms' =>
            let c := sympy.mkCall e s syms' kw in
            (s' ← sympy.run c; _sympy2operation s' lVars, called σ [c])
        end
    end.
Proof.
  unfold delegate. rewrite bind_run. unfold lift at 1.
  destruct (_operation_to_sympy arg ∅ sf) as [[s lVars]|ex]; [|done].
  rewrite bind_run. unfold lift at 1.
  destruct osyms as [o|]; simpl.
  - destruct (collect_syms o); simpl; [|done].
    unfold mbind, M_bind, cas_call, lift, called. simpl.
    by destruct (sympy.run _).
  - unfold mbind, M_bind, cas_call, lift, called. simpl.
    by destruct (sympy.run _).
Qed.

Lemma delegate_called e osyms arg sf kw :
  exists r calls,
    (forall σ, delegate e osyms arg sf kw σ = (r, called σ calls)) /\
    (length calls <= 1)%nat /\ Forall (fun c => sympy.entry c = e) calls.
Proof.
  destruct (_operation_to_sympy arg ∅ sf) as [[s lVars]|ex] eqn:Hf.
  - destruct (match osyms with
               | Some o => Some <$> collect_syms o
               | None => Ok None
               end) as [syms'|ex] eqn:Hs.
    + eexists _, [_]. split; [|split].
      * intros σ'. rewrite delegate_run, Hf, Hs. reflexivity.
      * simpl; lia.
      * by constructor.
    + exists (Raise ex), []. split; [|split; [simpl; lia|constructor]].
      intros σ'. by rewrite delegate_run, Hf, Hs, called_nil.
  - exists (Raise ex), []. split; [|split; [simpl; lia|constructor]].
    intros σ'. by rewrite delegate_run, Hf, called_nil.
Qed.

Lemma wrapper_on_called e osyms sf kw arg :
  exists r calls,
    (forall σ, wrapper_on e osyms sf kw arg σ = (r, called σ calls)) /\
    Forall (fun c => sympy.entry c = e) calls.
Proof.
  induction arg as [name value|t args format exponent _|name operation IH]
    using LExpr_nested_ind.
  - exists (Ok (latexexpr_efficalc.Var name value)), []. split; [|constructor].
    intros σ. simpl. by rewrite called_nil.
  - destruct (delegate_called e osyms
                (latexexpr_efficalc.Operation t args format exponent)
                sf kw) as (r & calls & Hrun & _ & Hall).
    exists r, calls. split; [|done]. intros σ. simpl. apply Hrun.
  - destruct IH as (r & calls & Hrun & Hall).
    exists (latexexpr_efficalc.Expression name <$> r), calls. split; [|done].
    intros σ. simpl. rewrite bind_run, Hrun. by destruct r.
Qed.

(** what the function form does, by the class of its argument *)
Lemma wrapper_run e osyms a sf kw σ o :
  heap σ !! a = Some o ->
  wrapper e osyms a sf kw σ =
    match o with
    | Obj (latexexpr_efficalc.Var _ _) => (Ok a, σ)
    | Obj (latexexpr_efficalc.Expression name operation) =>
        let '(r, σ') := wrapper_on e osyms sf kw operation σ in
        match r with
        | Ok r' =>
            (Ok (length (heap σ)),
             mkState (heap σ ++ [Obj (latexexpr_efficalc.Expression name r')])
                     (trace σ'))
        | Raise ex => (Raise ex, mkState (heap σ ++ [o]) (trace σ'))
        end
    | Obj (latexexpr_efficalc.Operation _ _ _ _ as op) =>
        let '(r, σ') := delegate e osyms op sf kw σ in
        match r with
        | Ok r' =>
            (Ok (length (heap σ)),
             mkState (heap σ ++ [Obj r']) (trace σ'))
        | Raise ex => (Raise ex, σ')
        end
    | _ => (Raise TypeError, σ)
    end.
Proof.
  intros Ha. unfold wrapper. rewrite bind_run. unfold deref at 1.
  rewrite Ha.
  destruct o as [[name value|t args format exponent|name operation]|l|cls];
    try reflexivity.
  - rewrite bind_run.
    destruct (delegate_called e osyms
                (latexexpr_efficalc.Operation t args format exponent)
                sf kw) as (r & calls & Hrun & _).
    rewrite Hrun. by destruct r.
  - destruct (wrapper_on_called e osyms sf kw operation)
      as (r & calls & Hrun & _).
    rewrite (Hrun σ).
    rewrite bind_run. unfold alloc at 1. rewrite bind_run.
    unfold Expression_method. rewrite bind_run. unfold deref at 1.
    cbn [heap]. rewrite list_lookup_middle by done.
    rewrite bind_run, Hrun.
    destruct r as [r'|ex]; [|done].
    unfold _setOperation. rewrite bind_run. unfold deref at 1, called.
    cbn [heap trace]. rewrite list_lookup_middle by done.
    unfold store. cbn [heap trace].
    by rewrite (insert_app_r_alt (heap σ) [_] (length (heap σ))),
      Nat.sub_diag by lia.
Qed.

(** the six operations are the six instances of the shared code *)
Lemma operations_instances syms o :
  o ∈ operations syms ->
  exists e osyms,
    fn o = wrapper e osyms /\ fn_on o = wrapper_on e osyms /\
    Expression_fn o = Expression_method e osyms /\
    Operation_fn o = Operation_method e osyms /\
    osyms = (if decide (e = sympy.collect) then Some syms else None).
Proof.
  unfold operations. rewrite !elem_of_cons, elem_of_nil.
  intros [->|[->|[->|[->|[->|[->|[]]]]]]]; eexists _, _;
    repeat split; reflexivity.
Qed.

End Interpreter_facts.

(** ** The function forms and the method forms *)

Section Operation_facts.
Context {Kw : Type} `{!sympy.Cas Kw} `{!latexexpr_efficalc.Defaults}.
Implicit Types (σ : State Kw) (e : sympy.Entry) (osyms : option PyObj).

(** a function form only ever adds objects to the heap and calls to the
    trace; what it adds does not depend on the state it starts in *)
Lemma wrapper_effect e osyms sf kw x :
  exists (r : result PyObj) (new : list PyObj) (calls : list (sympy.Call Kw)),
    Forall (fun c => sympy.entry c = e) calls /\
    forall σ a, heap σ !! a = Some x ->
      exists r',
        wrapper e osyms a sf kw σ =
          (r', mkState (heap σ ++ new) (trace σ ++ calls)) /\
        match r, r' with
        | Ok y, Ok l => (heap σ ++ new)%list !! l = Some y
        | Raise ex, Raise ex' => ex = ex'
        | _, _ => False
        end.
Proof.
  destruct x as [[name value|t args format exponent|name operation]|l|cls].
  - exists (Ok (Obj (latexexpr_efficalc.Var name value))), [], [].
    split; [constructor|]. intros σ a Ha. exists (Ok a).
    rewrite (wrapper_run _ _ _ _ _ _ _ Ha), !app_nil_r.
    by destruct σ.
  - destruct (delegate_called e osyms
                (latexexpr_efficalc.Operation t args format exponent)
                sf kw) as (r & calls & Hrun & _ & Hall).
    destruct r as [r|ex].
    + exists (Ok (Obj r)), [Obj r], calls. split; [done|].
      intros σ a Ha. exists (Ok (length (heap σ))).
      rewrite (wrapper_run _ _ _ _ _ _ _ Ha), Hrun.
      split; [done|]. by rewrite list_lookup_middle.
    + exists (Raise ex), [], calls. split; [done|].
      intros σ a Ha. exists (Raise ex).
      rewrite (wrapper_run _ _ _ _ _ _ _ Ha), Hrun, app_nil_r.
      by split.
  - destruct (wrapper_on_called e osyms sf kw operation)
      as (r & calls & Hrun & Hall).
    destruct r as [r|ex].
    + exists (Ok (Obj (latexexpr_efficalc.Expression name r))),
        [Obj (latexexpr_efficalc.Expression name r)], calls.
      split; [done|]. intros σ a Ha. exists (Ok (length (heap σ))).
      rewrite (wrapper_run _ _ _ _ _ _ _ Ha), Hrun.
      split; [done|]. by rewrite list_lookup_middle.
    + exists (Raise ex),
        [Obj (latexexpr_efficalc.Expression name operation)], calls.
      split; [done|]. intros σ a Ha. exists (Raise ex).
      by rewrite (wrapper_run _ _ _ _ _ _ _ Ha), Hrun.
  - exists (Raise TypeError), [], []. split; [constructor|].
    intros σ a Ha. exists (Raise TypeError).
    rewrite (wrapper_run _ _ _ _ _ _ _ Ha), !app_nil_r. by destruct σ.
  - exists (Raise TypeError), [], []. split; [constructor|].
    intros σ a Ha. exists (Raise TypeError).
    rewrite (wrapper_run _ _ _ _ _ _ _ Ha), !app_nil_r. by destruct σ.
Qed.

(** C8. Each of the six function forms returns a [Variable] argument
    as it is: the very reference it was given, with the heap unchanged
    and no call into the CAS made.  For an argument that is neither a
    [Variable] nor an [Expression] nor an [Operation] it raises
    [TypeError], again without any effect. *)
Theorem function_form_argument_type syms o a sf kw σ x :
  o ∈ operations syms ->
  heap σ !! a = Some x ->
  match x with
  | Obj (latexexpr_efficalc.Var _ _) => fn o a sf kw σ = (Ok a, σ)
  | Obj _ => True
  | _ => fn o a sf kw σ = (Raise TypeError, σ)
  end.
Proof.
  intros Ho Ha.
  destruct (operations_instances _ _ Ho) as (e & osyms & -> & _).
  rewrite (wrapper_run _ _ _ _ _ _ _ Ha).
  by destruct x as [[| |]| |].
Qed.

(** The [Operation] branch of a function form, when nothing raises:
    the result is the back-conversion of the answer of the CAS to the
    forward conversion of the argument, placed in a new object. *)
Lemma wrapper_composition e osyms csyms a sf kw σ t args fmt ex s lVars s' r :
  heap σ !! a = Some (Obj (latexexpr_efficalc.Operation t args fmt ex)) ->
  _operation_to_sympy (latexexpr_efficalc.Operation t args fmt ex) ∅ sf
    = Ok (s, lVars) ->
  match osyms with
  | Some o => Some <$> collect_syms o
  | None => Ok None
  end = Ok csyms ->
  sympy.run (sympy.mkCall e s csyms kw) = Ok s' ->
  _sympy2operation s' lVars = Ok r ->
  wrapper e osyms a sf kw σ =
    (Ok (length (heap σ)),
     mkState (heap σ ++ [Obj r])
             (trace σ ++ [sympy.mkCall e s csyms kw])).
Proof.
  intros Ha Hf Hs Hrun Hb.
  rewrite (wrapper_run _ _ _ _ _ _ _ Ha), delegate_run, Hf, Hs.
  simpl. rewrite Hrun. simpl. by rewrite Hb.
Qed.

(** C1. The six functions are not all pass-through: [collect] does not
    delegate when [syms] is a list of variables, the second form its
    documentation admits (line 442).  For the sum [x*y + x] and the
    list [[x]] the forward conversion succeeds, yet the call raises
    [TypeError] and the CAS is never asked. *)
Theorem collect_list_not_delegated (kw : Kw) fmt ex :
  let x := latexexpr_efficalc.Var "x" None in
  let y := latexexpr_efficalc.Var "y" None in
  let op := latexexpr_efficalc.Operation latexexpr_efficalc._ADD
              [latexexpr_efficalc.Operation latexexpr_efficalc._MUL
                 [x; y] fmt ex; x] fmt ex in
  let σ := mkState [Obj op] [] in
  _o2s op ∅ false
    = Ok (sympy.Add [sympy.Mul [sympy.Symbol "x"; sympy.Symbol "y"];
                     sympy.Symbol "x"]) /\
  collect 0%nat (ObjList [Obj x]) false kw σ = (Raise TypeError, σ) /\
  calls_of (collect 0%nat (ObjList [Obj x]) false kw) σ = [].
Proof.
  intros x y op σ. split; [reflexivity|].
  assert (collect 0%nat (ObjList [Obj x]) false kw σ = (Raise TypeError, σ))
    as Hrun.
  { unfold collect.
    rewrite (wrapper_run _ _ 0%nat _ _ σ (Obj op) eq_refl), delegate_run.
    reflexivity. }
  split; [exact Hrun|].
  apply (calls_of_called _ _ (Raise TypeError)). by rewrite called_nil.
Qed.

(** C9. [collect] applied to an [Operation] accepts a single
    [Variable] for [syms] and nothing else: for every other [syms],
    every list included, the call raises, and it does so with the state
    as it was, so before any call into the CAS. *)
Theorem collect_rejects_non_variable a syms sf kw σ t args fmt ex :
  heap σ !! a = Some (Obj (latexexpr_efficalc.Operation t args fmt ex)) ->
  (forall name value, syms <> Obj (latexexpr_efficalc.Var name value)) ->
  exists exn, collect a syms sf kw σ = (Raise exn, σ) /\
            calls_of (collect a syms sf kw) σ = [].
Proof.
  intros Ha Hsyms.
  assert (exists exn, collect a syms sf kw σ = (Raise exn, σ)) as [exn He].
  { unfold collect. rewrite (wrapper_run _ _ _ _ _ _ _ Ha), delegate_run.
    destruct (_operation_to_sympy _ ∅ sf) as [[s lVars]|exn]; [|by eexists].
    destruct syms as [[name value| |]| |]; try by eexists.
    by destruct (Hsyms name value). }
  exists exn. split; [done|].
  apply (calls_of_called _ _ (Raise exn)). by rewrite called_nil.
Qed.

(** C10. A function form does not write to an [Expression] it is
    given: after the call the object is what it was, and what the call
    returns is a new object, an [Expression] of the same name at a
    location that was not on the heap before.  (The [operation] field
    is held by value here: that it is unchanged is what "the same
    object" amounts to.) *)
Theorem function_form_copies_Expression syms o a sf kw σ name operation :
  o ∈ operations syms ->
  heap σ !! a = Some (Obj (latexexpr_efficalc.Expression name operation)) ->
  heap (fn o a sf kw σ).2 !! a
    = Some (Obj (latexexpr_efficalc.Expression name operation)) /\
  forall r, (fn o a sf kw σ).1 = Ok r ->
    r <> a /\ heap σ !! r = None /\
    exists operation',
      fn_on o sf kw operation σ = (Ok operation', called σ (calls_of (fn o a sf kw) σ)) /\
      heap (fn o a sf kw σ).2 !! r
        = Some (Obj (latexexpr_efficalc.Expression name operation')).
Proof.
  intros Ho Ha.
  destruct (operations_instances _ _ Ho) as (e & osyms & -> & -> & _).
  unfold calls_of.
  rewrite (wrapper_run _ _ _ _ _ _ _ Ha).
  destruct (wrapper_on_called e osyms sf kw operation)
    as (r0 & calls & Hrun & _).
  rewrite Hrun. unfold called.
  destruct r0 as [operation'|ex]; cbn [fst snd heap trace].
  - split; [by apply lookup_app_l_Some|].
    intros r [= <-]. split; [|split].
    + apply lookup_lt_Some in Ha. lia.
    + by apply lookup_ge_None_2.
    + exists operation'. rewrite drop_app_length. split; [done|].
      by rewrite list_lookup_middle.
  - split; [by apply lookup_app_l_Some|]. by intros r [=].
Qed.

(** C7. A function form is a function of its arguments alone.  Two
    calls whose argument objects are equal, in whatever states, raise
    the same exception or return references to equal objects, and make
    the same calls into the CAS; and each call leaves every object that
    was on the heap before it as it was. *)
Theorem function_form_deterministic syms o a1 a2 sf kw σ1 σ2 x :
  o ∈ operations syms ->
  heap σ1 !! a1 = Some x ->
  heap σ2 !! a2 = Some x ->
  heap σ1 `prefix_of` heap (fn o a1 sf kw σ1).2 /\
  heap σ2 `prefix_of` heap (fn o a2 sf kw σ2).2 /\
  match (fn o a1 sf kw σ1).1, (fn o a2 sf kw σ2).1 with
  | Ok l1, Ok l2 =>
      exists y, heap (fn o a1 sf kw σ1).2 !! l1 = Some y /\
                heap (fn o a2 sf kw σ2).2 !! l2 = Some y
  | Raise e1, Raise e2 => e1 = e2
  | _, _ => False
  end /\
  calls_of (fn o a1 sf kw) σ1 = calls_of (fn o a2 sf kw) σ2.
Proof.
  intros Ho H1 H2.
  destruct (operations_instances _ _ Ho) as (e & osyms & -> & _).
  destruct (wrapper_effect e osyms sf kw x) as (r & new & calls & _ & Hrun).
  destruct (Hrun _ _ H1) as (r1 & E1 & R1).
  destruct (Hrun _ _ H2) as (r2 & E2 & R2).
  unfold calls_of. rewrite E1, E2. cbn [fst snd heap trace].
  rewrite !drop_app_length.
  repeat split; try by apply prefix_app_r.
  destruct r as [y|ex], r1 as [l1|ex1], r2 as [l2|ex2]; try done.
  - by exists y.
  - congruence.
Qed.

(** The method form of an [Expression] replaces its [operation] field
    with the processed operation and touches nothing else. *)
Lemma Expression_method_sets_operation syms o self sf kw σ name operation r σ1 :
  o ∈ operations syms ->
  heap σ !! self = Some (Obj (latexexpr_efficalc.Expression name operation)) ->
  fn_on o sf kw operation σ = (Ok r, σ1) ->
  Expression_fn o self sf kw σ =
    (Ok tt,
     mkState (<[self := Obj (latexexpr_efficalc.Expression name r)]> (heap σ))
             (trace σ1)).
Proof.
  intros Ho Hself Hr.
  destruct (operations_instances _ _ Ho) as (e & osyms & _ & Eon & -> & _).
  rewrite Eon in Hr.
  destruct (wrapper_on_called e osyms sf kw operation)
    as (r0 & calls & Hrun & _).
  rewrite Hrun in Hr. injection Hr as -> <-.
  unfold Expression_method. rewrite bind_run. unfold deref at 1.
  rewrite Hself, bind_run, Hrun.
  unfold _setOperation. rewrite bind_run. unfold deref at 1, called.
  cbn [heap trace]. by rewrite Hself.
Qed.

(** The method form of an [Operation] whose processed result is again
    an [Operation] overwrites the four fields of the receiver with those
    of the result. *)
Lemma Operation_method_copies syms o self sf kw σ σ1 r t0 args0 fmt0 ex0
      t args fmt ex :
  o ∈ operations syms ->
  heap σ !! self = Some (Obj (latexexpr_efficalc.Operation t0 args0 fmt0 ex0)) ->
  fn o self sf kw σ = (Ok r, σ1) ->
  heap σ1 !! r = Some (Obj (latexexpr_efficalc.Operation t args fmt ex)) ->
  Operation_fn o self sf kw σ =
    (Ok tt,
     mkState (<[self := Obj (latexexpr_efficalc.Operation t args fmt ex)]>
                (heap σ1))
             (trace σ1)).
Proof.
  intros Ho Hself Hf Hr.
  destruct (operations_instances _ _ Ho) as (e & osyms & Ef & _ & _ & -> & _).
  rewrite Ef in Hf.
  assert (heap σ1 !! self
          = Some (Obj (latexexpr_efficalc.Operation t0 args0 fmt0 ex0))) as Hs1.
  { destruct (wrapper_effect e osyms sf kw
                (Obj (latexexpr_efficalc.Operation t0 args0 fmt0 ex0)))
      as (r0 & new & calls & _ & Hrun).
    destruct (Hrun _ _ Hself) as (r' & E & _).
    rewrite Hf in E. injection E as _ ->. cbn [heap].
    by apply lookup_app_l_Some. }
  unfold Operation_method. rewrite bind_run, Hf.
  unfold _copyOperation. rewrite bind_run. unfold deref at 1.
  rewrite Hr, bind_run. unfold deref at 1. by rewrite Hs1.
Qed.

(** C4. The method form of an [Operation] does not copy a result that
    is a [Variable]: whenever the function form returns one (a number,
    or one of the variables of the receiver), the method raises
    [AttributeError] on reading [o2.type] and the receiver keeps its
    fields. *)
Theorem Operation_method_variable_result syms o self sf kw σ σ1 x r name value :
  o ∈ operations syms ->
  heap σ !! self = Some x ->
  fn o self sf kw σ = (Ok r, σ1) ->
  heap σ1 !! r = Some (Obj (latexexpr_efficalc.Var name value)) ->
  Operation_fn o self sf kw σ = (Raise AttributeError, σ1) /\
  heap σ1 !! self = Some x.
Proof.
  intros Ho Hself Hf Hr.
  destruct (operations_instances _ _ Ho) as (e & osyms & Ef & _ & _ & -> & _).
  rewrite Ef in Hf. split.
  - unfold Operation_method. rewrite bind_run, Hf.
    unfold _copyOperation. rewrite bind_run. unfold deref at 1.
    by rewrite Hr.
  - destruct (wrapper_effect e osyms sf kw x) as (r0 & new & calls & _ & Hrun).
    destruct (Hrun _ _ Hself) as (r' & E & _).
    rewrite Hf in E. injection E as _ ->. cbn [heap].
    by apply lookup_app_l_Some.
Qed.

End Operation_facts.

(** ** The entry points of the CAS *)

Lemma six_entries_NoDup :
  NoDup [sympy.simplify; sympy.expand; sympy.factor; sympy.collect;
         sympy.cancel; sympy.apart].
Proof. by apply (bool_decide_unpack _). Qed.

Section Entry_points.
Context {Kw : Type} `{!sympy.Cas Kw} `{!latexexpr_efficalc.Defaults}.
Implicit Types (σ : State Kw) (e : sympy.Entry) (osyms : option PyObj).

(** the [Operation] branch makes exactly one call, to its own entry
    point, as soon as the forward conversion and the check of [syms]
    have passed *)
Lemma wrapper_calls e osyms csyms a sf kw σ t args fmt ex s lVars :
  heap σ !! a = Some (Obj (latexexpr_efficalc.Operation t args fmt ex)) ->
  _operation_to_sympy (latexexpr_efficalc.Operation t args fmt ex) ∅ sf
    = Ok (s, lVars) ->
  match osyms with
  | Some o => Some <$> collect_syms o
  | None => Ok None
  end = Ok csyms ->
  calls_of (wrapper e osyms a sf kw) σ = [sympy.mkCall e s csyms kw].
Proof.
  intros Ha Hf Hs. unfold calls_of.
  rewrite (wrapper_run _ _ _ _ _ _ _ Ha), delegate_run, Hf, Hs.
  cbn zeta.
  destruct (sympy.run _ ≫= _); cbn [snd trace called];
    by rewrite drop_app_length.
Qed.

Lemma o2s_brackets_symbol name fmt ex sf :
  _operation_to_sympy
    (latexexpr_efficalc.Operation latexexpr_efficalc._RBRACKETS
       [latexexpr_efficalc.Var name None] fmt ex) ∅ sf
  = Ok (sympy.Symbol name, {[ name := latexexpr_efficalc.Var name None ]}).
Proof. reflexivity. Qed.

Lemma every_entry_invoked (kw : Kw) e : invoked e.
Proof.
  set (x := latexexpr_efficalc.Var "x" None).
  set (σ := mkState
              [Obj (latexexpr_efficalc.Operation latexexpr_efficalc._RBRACKETS
                      [x] "" 0)] [] : State Kw).
  assert (forall e' osyms csyms,
             match osyms with
             | Some o => Some <$> collect_syms o
             | None => Ok None
             end = Ok csyms ->
             exists c, c ∈ calls_of (wrapper e' osyms 0%nat false kw) σ /\
                       sympy.entry c = e') as Hcall.
  { intros e' osyms csyms Hs.
    exists (sympy.mkCall e' (sympy.Symbol "x") csyms kw).
    split; [|reflexivity].
    erewrite wrapper_calls; [by left|reflexivity|apply o2s_brackets_symbol|].
    exact Hs. }
  unfold invoked. exists (Obj x).
  destruct e.
  - destruct (Hcall sympy.simplify None None eq_refl) as (c & Hc & He).
    eexists (mkOperation simplify _ _ _), 0%nat, false, kw, σ, c.
    split; [|done]. unfold operations.
    repeat first [apply list_elem_of_here | apply list_elem_of_further].
  - destruct (Hcall sympy.expand None None eq_refl) as (c & Hc & He).
    eexists (mkOperation expand _ _ _), 0%nat, false, kw, σ, c.
    split; [|done]. unfold operations.
    repeat first [apply list_elem_of_here | apply list_elem_of_further].
  - destruct (Hcall sympy.factor None None eq_refl) as (c & Hc & He).
    eexists (mkOperation factor _ _ _), 0%nat, false, kw, σ, c.
    split; [|done]. unfold operations.
    repeat first [apply list_elem_of_here | apply list_elem_of_further].
  - destruct (Hcall sympy.collect (Some (Obj x)) _ eq_refl) as (c & Hc & He).
    eexists (mkOperation (fun arg => collect arg (Obj x)) _ _ _),
      0%nat, false, kw, σ, c.
    split; [|done]. unfold operations.
    repeat first [apply list_elem_of_here | apply list_elem_of_further].
  - destruct (Hcall sympy.cancel None None eq_refl) as (c & Hc & He).
    eexists (mkOperation cancel _ _ _), 0%nat, false, kw, σ, c.
    split; [|done]. unfold operations.
    repeat first [apply list_elem_of_here | apply list_elem_of_further].
  - destruct (Hcall sympy.apart None None eq_refl) as (c & Hc & He).
    eexists (mkOperation apart _ _ _), 0%nat, false, kw, σ, c.
    split; [|done]. unfold operations.
    repeat first [apply list_elem_of_here | apply list_elem_of_further].
Qed.

(** C5, amended. The dispatch layer invokes exactly six distinct entry
    points of the CAS: [simplify], [expand], [factor], [collect],
    [cancel] and [apart]. *)
Theorem dispatch_entry_points (kw : Kw) :
  exists l : list sympy.Entry,
    NoDup l /\ length l = 6%nat /\ forall e, e ∈ l <-> invoked e.
Proof.
  exists [sympy.simplify; sympy.expand; sympy.factor; sympy.collect;
          sympy.cancel; sympy.apart].
  split; [|split; [reflexivity|]].
  - apply six_entries_NoDup.
  - intros e. split; [intros _; by apply every_entry_invoked|].
    intros _. destruct e;
      repeat first [apply list_elem_of_here | apply list_elem_of_further].
Qed.

End Entry_points.

(** C5 as stated fails: no list of five distinct entry points holds all
    that the dispatch layer invokes (here with the CAS that echoes its
    argument). *)
Lemma dispatch_entry_points_not_five :
  (exists l : list sympy.Entry,
      NoDup l /\ length l = 5%nat /\
      forall e, e ∈ l <-> @invoked unit echo_cas example_defaults e)
  <-> False.
Proof.
  split; [|done]. intros (l & _ & Hlen & Hl).
  assert ([sympy.simplify; sympy.expand; sympy.factor; sympy.collect;
           sympy.cancel; sympy.apart] ⊆+ l) as Hsub.
  { apply NoDup_submseteq.
    - apply six_entries_NoDup.
    - intros e _. apply Hl. by apply every_entry_invoked. }
  apply submseteq_length in Hsub. simpl in Hsub. lia.
Qed.

(** ** The conversions *)

Section Conversion_facts.
Context {Kw : Type} `{!sympy.Cas Kw} `{!latexexpr_efficalc.Defaults}.

(** the tag-to-head table of the one-argument branch, as the code has
    it (lines 116-155): [_COSH] and [_TANH] go to [sinh], [_SQRT] to the
    power -2 *)
Lemma o2s_unary t a fmt ex vm sf s vm' :
  _operation_to_sympy a vm sf = Ok (s, vm') ->
  _o2s (latexexpr_efficalc.Operation t [a] fmt ex) vm sf =
    match t with
    | latexexpr_efficalc._NEG => Ok (sympy.Mul [s; sympy.Integer (-1)])
    | latexexpr_efficalc._ABS => Ok (sympy.Apply sympy.Abs [s])
    | latexexpr_efficalc._SQR => Ok (sympy.Pow s (sympy.Integer 2))
    | latexexpr_efficalc._SQRT => Ok (sympy.Pow s (sympy.Integer (-2)))
    | latexexpr_efficalc._SIN => Ok (sympy.Apply sympy.sin [s])
    | latexexpr_efficalc._COS => Ok (sympy.Apply sympy.cos [s])
    | latexexpr_efficalc._TAN => Ok (sympy.Apply sympy.tan [s])
    | latexexpr_efficalc._SINH => Ok (sympy.Apply sympy.sinh [s])
    | latexexpr_efficalc._COSH => Ok (sympy.Apply sympy.sinh [s])
    | latexexpr_efficalc._TANH => Ok (sympy.Apply sympy.sinh [s])
    | latexexpr_efficalc._EXP => Ok (sympy.Apply sympy.exp [s])
    | latexexpr_efficalc._LN => Ok (sympy.Apply sympy.log [s])
    | latexexpr_efficalc._LOG10 =>
        s' ← sympy.sympify a; Ok (sympy.log2 s' (sympy.Integer 10))
    | latexexpr_efficalc._NONE | latexexpr_efficalc._POS
    | latexexpr_efficalc._RBRACKETS | latexexpr_efficalc._SBRACKETS
    | latexexpr_efficalc._CBRACKETS | latexexpr_efficalc._ABRACKETS => Ok s
    | latexexpr_efficalc._ADD => Ok (sympy.Add [s])
    | latexexpr_efficalc._MUL => Ok (sympy.Mul [s])
    | latexexpr_efficalc._MAX | latexexpr_efficalc._MIN =>
        Raise UnboundLocalError
    | latexexpr_efficalc._OTHER _ => Raise LaTeXExpressionError
    | _ => Raise IndexError
    end.
Proof.
  intros Ha. unfold _o2s.
  destruct t; cbn -[sympy.log2]; rewrite ?Ha; try reflexivity.
  by destruct (sympy.sympify a).
Qed.

(** the two-argument branch (lines 97-115): [_ROOT] goes to the power
    of the negated degree, the conversion of [-a[1]] *)
Lemma o2s_binary t a0 a1 fmt ex vm sf s0 vm0 s1 vm1 :
  latexexpr_efficalc.tag_in t latexexpr_efficalc._supportedOperations2 = true ->
  _operation_to_sympy a0 vm sf = Ok (s0, vm0) ->
  _operation_to_sympy a1 vm0 sf = Ok (s1, vm1) ->
  _operation_to_sympy (latexexpr_efficalc.Operation t [a0; a1] fmt ex) vm sf =
    Ok (match t with
        | latexexpr_efficalc._SUB =>
            sympy.Add [s0; sympy.Mul [sympy.Integer (-1); s1]]
        | latexexpr_efficalc._POW => sympy.Pow s0 s1
        | latexexpr_efficalc._ROOT =>
            sympy.Pow s0 (sympy.Mul [s1; sympy.Integer (-1)])
        | latexexpr_efficalc._LOG => sympy.log2 s0 s1
        | _ => sympy.Mul [s0; sympy.Pow s1 (sympy.Integer (-1))]
        end, vm1).
Proof.
  intros Ht E0 E1.
  destruct t; try discriminate Ht;
    cbn -[sympy.log2]; rewrite E0; cbn -[sympy.log2]; by rewrite E1.
Qed.

(** the exponent of the [_ROOT] case is the conversion of
    [Operation(_NEG, a[1])], which the source writes [-a[1]] *)
Lemma o2s_ROOT_exponent a1 vm sf s1 vm1 :
  _operation_to_sympy a1 vm sf = Ok (s1, vm1) ->
  _operation_to_sympy (latexexpr_efficalc.neg a1) vm sf
  = Ok (sympy.Mul [s1; sympy.Integer (-1)], vm1).
Proof.
  intros E1. unfold latexexpr_efficalc.neg, latexexpr_efficalc.mk.
  cbn. by rewrite E1.
Qed.


(** C2. The forward conversion does not preserve values: it sends the
    hyperbolic cosine of a symbolic variable to the hyperbolic sine of
    the CAS, whose value at 0 is 0, while the tree has the value 1. *)
Theorem o2s_cosh_value fmt ex sf :
  let t := latexexpr_efficalc.Operation latexexpr_efficalc._COSH
             [latexexpr_efficalc.Var "x" None] fmt ex in
  let env := fun _ : string => 0%R in
  exists s,
    _o2s t ∅ sf = Ok s /\
    s = sympy.Apply sympy.sinh [sympy.Symbol "x"] /\
    seval env s = 0%R /\ leval env t = 1%R.
Proof.
  intros t env. exists (sympy.Apply sympy.sinh [sympy.Symbol "x"]).
  split; [reflexivity|]. split; [reflexivity|].
  split; simpl; unfold env; [apply sinh_0|apply cosh_0].
Qed.

(** C3. The round trip fails in both ways: on the exponential of a
    variable the back-conversion raises (its table has no row for the
    exponential of the CAS), and on the hyperbolic cosine it succeeds
    with the hyperbolic sine, a tree of a different value. *)
Theorem roundtrip_exp_cosh fmt ex sf :
  let x := latexexpr_efficalc.Var "x" None in
  let env := fun _ : string => 0%R in
  roundtrip (latexexpr_efficalc.Operation latexexpr_efficalc._EXP [x] fmt ex) sf
    = Raise LaTeXExpressionError /\
  roundtrip (latexexpr_efficalc.Operation latexexpr_efficalc._COSH [x] fmt ex) sf
    = Ok (latexexpr_efficalc.sinh x) /\
  leval env (latexexpr_efficalc.sinh x) = 0%R /\
  leval env (latexexpr_efficalc.Operation latexexpr_efficalc._COSH [x] fmt ex)
    = 1%R.
Proof.
  intros x env. split; [reflexivity|]. split; [reflexivity|].
  split; simpl; unfold env; [apply sinh_0|apply cosh_0].
Qed.

(** C6. The forward conversion is not total on variables: the variable
    named [inf] whose value is the float infinity passes the test of
    line 75, and [int(arg.value)] of line 76 raises [OverflowError];
    likewise for the negative infinity, and for the NaN with
    [ValueError]. *)
Theorem o2s_nonfinite_raises vm sf :
  _operation_to_sympy
    (latexexpr_efficalc.Var "inf" (Some (PyFloat (Inf false)))) vm sf
  = Raise OverflowError /\
  _operation_to_sympy
    (latexexpr_efficalc.Var "-inf" (Some (PyFloat (Inf true)))) vm sf
  = Raise OverflowError /\
  _operation_to_sympy
    (latexexpr_efficalc.Var "nan" (Some (PyFloat Nan))) vm sf
  = Raise ValueError.
Proof. repeat split; reflexivity. Qed.

(** The [_LOG10] branch hands its argument to the CAS unconverted: the
    outcome is that of the coercion the CAS applies to it, and no
    variable of the argument reaches [varMap]. *)
Lemma o2s_LOG10 a fmt ex vm sf :
  _operation_to_sympy
    (latexexpr_efficalc.Operation latexexpr_efficalc._LOG10 [a] fmt ex) vm sf
  = (s ← sympy.sympify a; Ok (sympy.log2 s (sympy.Integer 10), vm)).
Proof. reflexivity. Qed.

End Conversion_facts.

(** ** Where the forward conversion is total and value-preserving *)







Section Forward_facts.
Context {Kw : Type} `{!sympy.Cas Kw}.


End Forward_facts.

Section Value_facts.
Context {Kw : Type} `{!sympy.Cas Kw}.
Variable env : string -> R.



End Value_facts.

Section Forward_domain.
Context {Kw : Type} `{!sympy.Cas Kw}.



End Forward_domain.

(** ** What the forward conversion leaves in [varMap] *)

Lemma keys_kept_refl vm : keys_kept vm vm.
Proof. by intros k. Qed.

Lemma keys_kept_trans vm1 vm2 vm3 :
  keys_kept vm1 vm2 -> keys_kept vm2 vm3 -> keys_kept vm1 vm3.
Proof. intros H1 H2 k Hk. by apply H2, H1. Qed.

Lemma keys_kept_insert k v (vm : VarMap) : keys_kept vm (<[k := v]> vm).
Proof.
  intros k' Hk. destruct (decide (k = k')) as [->|Hne].
  - by rewrite lookup_insert_eq.
  - by rewrite lookup_insert_ne.
Qed.

Lemma registered_keys_kept vm vm' s :
  keys_kept vm vm' -> registered vm s = true -> registered vm' s = true.
Proof.
  intros Hk.
  induction s as [| | |name| | | | |l IH|l IH|b e IHb IHe|f l IH]
    using Expr_nested_ind; simpl; try done.
  - destruct (vm !! name) as [v|] eqn:E; [|done]. intros _.
    destruct (Hk name) as [v' ->]; by rewrite ?E.
  - rewrite !forallb_forall. intros Hl a Ha.
    apply (proj1 (List.Forall_forall _ _) IH a Ha), Hl, Ha.
  - rewrite !forallb_forall. intros Hl a Ha.
    apply (proj1 (List.Forall_forall _ _) IH a Ha), Hl, Ha.
  - intros [Hb He]%andb_prop. by rewrite IHb, IHe.
  - rewrite !forallb_forall. intros Hl a Ha.
    apply (proj1 (List.Forall_forall _ _) IH a Ha), Hl, Ha.
Qed.

Lemma Forall_vars_args Q t args fmt ex :
  Forall_vars Q (latexexpr_efficalc.Operation t args fmt ex) ->
  Forall (Forall_vars Q) args.
Proof.
  simpl. induction args as [|a args IHargs]; [constructor|].
  intros [Ha Hargs]. constructor; [done|by apply IHargs].
Qed.

Section Forward_varMap.
Context {Kw : Type} `{!sympy.Cas Kw}.
Variable P : string -> LExpr -> Prop.
Variable Q : string -> option PyNum -> Prop.
Variable sf : bool.
Hypothesis HPQ : forall name value,
    Q name value -> value = None \/ sf = false ->
    P name (latexexpr_efficalc.Var name value).

Lemma convert_each_varMap conv l :
  Forall (fun a => forall vm, map_Forall P vm ->
                     keeps P (no_log10 a) vm (conv a vm)) l ->
  forall vm, map_Forall P vm ->
    match convert_each conv l vm with
    | Ok (ss, vm') =>
        map_Forall P vm' /\ keys_kept vm vm' /\
        (forallb no_log10 l = true -> forallb (registered vm') ss = true)
    | Raise _ => True
    end.
Proof.
  induction 1 as [|a l Ha _ IHl]; intros vm Hvm.
  - cbn. split; [done|]. split; [apply keys_kept_refl|done].
  - cbn. fold (convert_each conv). specialize (Ha vm Hvm).
    destruct (conv a vm) as [[s vm1]|]; [|done]. cbn.
    destruct Ha as (H1 & K1 & R1). specialize (IHl vm1 H1).
    destruct (convert_each conv l vm1) as [[ss vm2]|]; [|done]. cbn.
    destruct IHl as (H2 & K2 & R2). split; [done|]. split.
    + by eapply keys_kept_trans.
    + intros [Ga Gl]%andb_prop. rewrite R2 by done.
      by rewrite (registered_keys_kept vm1 vm2 s K2 (R1 Ga)).
Qed.

Lemma o2s_varMap e :
  Forall_vars Q e ->
  forall vm, map_Forall P vm ->
    keeps P (no_log10 e) vm (_operation_to_sympy e vm sf).
Proof using HPQ.
  induction e as [name value|t args format exponent IH|name operation IH]
    using LExpr_nested_ind; intros HQ vm Hvm.
  - simpl in HQ.
    assert (value = None \/ sf = false ->
            keeps P true vm
              (Ok (sympy.Symbol name,
                   <[name := latexexpr_efficalc.Var name value]> vm))) as Hreg.
    { intros Hv. split; [|split].
      - apply map_Forall_insert_2; [by apply HPQ|done].
      - apply keys_kept_insert.
      - intros _. simpl. by rewrite lookup_insert_eq. }
    assert (forall s, registered vm s = true -> keeps P true vm (Ok (s, vm)))
      as Hnum.
    { intros s Hs. split; [done|]. split; [apply keys_kept_refl|done]. }
    destruct value as [v|]; simpl; [|apply Hreg; by left].
    destruct (String.eqb name (fmt_g v)).
    + destruct (py_int v) as [z|]; [|done]. cbn.
      destruct (py_eq_int v z); apply Hnum; [done|].
      by destruct (py_float v).
    + destruct sf; simpl; [|apply Hreg; by right].
      apply Hnum. by destruct (py_float v).
  - apply Forall_vars_args in HQ.
    assert (Forall (fun a => forall vm, map_Forall P vm ->
                       keeps P (no_log10 a) vm (_operation_to_sympy a vm sf))
                   args) as IH'.
    { apply List.Forall_forall. intros a Ha.
      apply (proj1 (List.Forall_forall _ _) IH a Ha).
      by apply (proj1 (List.Forall_forall _ _) HQ). }
    clear IH HQ.
    destruct t; cbn -[convert_each sympy.log2];
      try (pose proof (convert_each_varMap _ args IH' vm Hvm) as Hl;
           destruct (convert_each _ args vm) as [[ss vm1]|]; [|done];
           cbn; first [done | by destruct Hl as (? & ? & ?)]).
    all: try done.
    all: destruct args as [|a0 args]; [done|];
      inversion IH' as [|? ? IH0 IHr]; subst.
    all: try (specialize (IH0 vm Hvm);
              destruct (_operation_to_sympy a0 vm sf) as [[s0 vm0]|];
              [|done]; cbn; destruct IH0 as (H0 & K0 & R0);
              split; [done|]; split; [done|];
              intros G; cbn; rewrite R0 by (by destruct (no_log10 a0));
              reflexivity).
    all: try (destruct (sympy.sympify a0); [|done]; cbn;
              split; [done|]; split; [apply keys_kept_refl|done]).
    all: specialize (IH0 vm Hvm);
      destruct (_operation_to_sympy a0 vm sf) as [[s0 vm0]|]; [|done];
      cbn -[sympy.log2]; destruct IH0 as (H0 & K0 & R0);
      destruct args as [|a1 args]; [done|];
      inversion IHr as [|? ? IH1 _]; subst; specialize (IH1 vm0 H0);
      destruct (_operation_to_sympy a1 vm0 sf) as [[s1 vm1]|]; [|done];
      cbn; destruct IH1 as (H1 & K1 & R1);
      (split; [done|]); (split; [by eapply keys_kept_trans|]);
      intros [_ [G0 [G1 _]%andb_prop]%andb_prop]%andb_prop;
      cbn; rewrite (registered_keys_kept vm0 vm1 s0 K1 (R0 G0)), (R1 G1);
      reflexivity.
  - simpl. by apply IH.
Qed.

End Forward_varMap.

(** ** Where the back-conversion returns *)

Lemma mapM_Ok_Forall2 {A B} (f : A -> result B) l rs :
  mapM f l = Ok rs -> Forall2 (fun a r => f a = Ok r) l rs.
Proof.
  revert rs. induction l as [|a l IHl]; intros rs Hm.
  - injection Hm as <-. constructor.
  - cbn in Hm. destruct (f a) as [r|] eqn:E; [|discriminate Hm].
    cbn in Hm. destruct (mapM f l) as [rs'|]; [|discriminate Hm].
    injection Hm as <-. constructor; [done|by apply IHl].
Qed.

Lemma mapM_outcome {A B} (f : A -> result B) (reg shape : A -> bool)
      (good : B -> Prop) l :
  Forall (fun a => match f a with
                   | Ok r => reg a && shape a = true /\ good r
                   | Raise ex => reg a && shape a = false /\
                                 (ex = KeyError -> reg a = false)
                   end) l ->
  match mapM f l with
  | Ok rs => forallb reg l && forallb shape l = true /\ Forall good rs
  | Raise ex => forallb reg l && forallb shape l = false /\
                (ex = KeyError -> forallb reg l = false)
  end.
Proof.
  induction 1 as [|a l Ha _ IHl]; [by cbn|].
  cbn. destruct (f a) as [r|ex]; cbn.
  - destruct Ha as [Ha Hr]. apply andb_prop in Ha as [-> ->].
    destruct (mapM f l) as [rs|ex]; cbn.
    + destruct IHl as [Hl Hrs]. split; [done|by constructor].
    + done.
  - destruct Ha as [Ha Hk]. split.
    + destruct (reg a), (shape a); try done; simpl.
      by rewrite andb_false_r.
    + intros ->. by rewrite Hk.
Qed.

Section Back_domain.
Context `{!latexexpr_efficalc.Defaults}.

Lemma bracket_sum_plain a :
  plain a = true ->
  exists a', bracket_sum a = Ok a' /\ plain a' = true /\
             (a' = a \/ a' = latexexpr_efficalc.brackets a).
Proof.
  destruct a as [name value|t args fmt ex|name op]; [|intros Hp|done].
  - intros _. eexists. split; [reflexivity|]. split; auto.
  - unfold bracket_sum. cbn.
    destruct t; eexists; (split; [reflexivity|]); split; auto.
Qed.

Lemma bracket_sums_plain args :
  Forall (fun a => plain a = true) args ->
  exists args', bracket_sums args = Ok args' /\
    Forall2 (fun a a' => a' = a \/ a' = latexexpr_efficalc.brackets a)
            args args'.
Proof.
  induction 1 as [|a args Ha _ (args' & E' & IH)]; [by eexists|].
  destruct (bracket_sum_plain a Ha) as (a' & E & _ & Ha').
  exists (a' :: args'). cbn. rewrite E. cbn. rewrite E'.
  split; [done|by constructor].
Qed.

Lemma back_Add_plain args :
  Forall (fun a => plain a = true) args ->
  exists r, back_Add args = Ok r /\ compound r = true.
Proof.
  intros Hargs. unfold back_Add.
  destruct args as [|a0 [|a1 rest]];
    try (eexists; split; [reflexivity|done]).
  destruct a1 as [name value|t nargs fmt ex|name op], rest as [|a2 rest];
    try (eexists; split; [reflexivity|done]).
  all: destruct t; try (eexists; split; [reflexivity|done]).
  inversion Hargs as [|? ? _ H1]; subst.
  inversion H1 as [|? ? Hn _]; subst.
  destruct nargs; [done|]. eexists; split; [reflexivity|done].
Qed.

Lemma back_Mul_plain args :
  Forall (fun a => plain a = true) args ->
  exists r, back_Mul args = Ok r /\ compound r = true.
Proof.
  intros Hargs.
  destruct (bracket_sums_plain args Hargs) as (args' & E & _).
  unfold back_Mul. rewrite E. cbn.
  destruct (Nat.eqb (length args) 2); [|(eexists; split; [reflexivity|done])].
  destruct args as [|a0 [|a1 [|a2 args]]]; try (eexists; split; [reflexivity|done]).
  destruct (is_variable_named "-1" a0); [(eexists; split; [reflexivity|done])|].
  destruct (is_variable_named "-1" a1); (eexists; split; [reflexivity|done]).
Qed.

Lemma back_Pow_outcome a0 a1 :
  plain a0 = true ->
  let n := match a1 with
           | latexexpr_efficalc.Var name _ => Some name
           | _ => None
           end in
  match back_Pow a0 a1 with
  | Ok r => n <> Some "0.5" /\ compound r = true
  | Raise ex => n = Some "0.5" /\ ex = TypeError
  end.
Proof.
  intros Hp n. unfold back_Pow. fold n.
  destruct (bracket_sum_plain a0 Hp) as (a0' & -> & _).
  clearbody n. repeat case_bool_decide; cbn; (split; [congruence|done]).
Qed.

Lemma back_Apply_outcome f args :
  match back_Apply f args with
  | Ok r => compound r = true /\ f <> sympy.exp /\ nonempty args = true
  | Raise ex => (f = sympy.exp \/ nonempty args = false) /\ ex <> KeyError
  end.
Proof.
  unfold back_Apply. destruct f; cbn; try (by split; [left|]);
    destruct args; cbn; try done; by split; [right|].
Qed.

Lemma back_Rational_compound p q : compound (back_Rational p q) = true.
Proof. unfold back_Rational. by destruct (0 <? p). Qed.

Variable vm : VarMap.
Hypothesis Hvm : well_named vm.

Lemma s2o_outcome s : back_outcome vm s (_sympy2operation s vm).
Proof using Hvm.
  assert (forall r : LExpr, compound r = true ->
            plain r = true /\
            match r with
            | latexexpr_efficalc.Var name _ => Some name
            | _ => None
            end = None) as Hc.
  { intros [| |]; done. }
  assert (forall l,
             Forall (fun s => back_outcome vm s (_sympy2operation s vm)) l ->
             match mapM (fun a => _sympy2operation a vm) l with
             | Ok rs => forallb (registered vm) l && forallb back_shape l = true
                        /\ Forall (fun r => plain r = true) rs
             | Raise ex => forallb (registered vm) l && forallb back_shape l
                           = false /\
                           (ex = KeyError -> forallb (registered vm) l = false)
             end) as Hmap.
  { intros l Hl. apply mapM_outcome. apply (Forall_impl _ _ _ Hl).
    intros a Ha. unfold back_outcome in Ha.
    destruct (_sympy2operation a vm); [|done].
    destruct Ha as (? & ? & ?). by split. }
  induction s as [| | |name| | | | |l IH|l IH|b e IHb IHe|f l IH]
    using Expr_nested_ind; try done.
  - (* Rational *)
    unfold back_outcome. cbn. split; [done|]. by apply Hc, back_Rational_compound.
  - (* Symbol *)
    unfold back_outcome. cbn.
    destruct (vm !! name) as [v|] eqn:E; [|done].
    destruct (Hvm _ _ E) as [value ->]. done.
  - (* Add *)
    unfold back_outcome. cbn. specialize (Hmap l IH).
    destruct (mapM _ l) as [args|ex]; cbn; [|done].
    destruct Hmap as [Hl Hargs].
    destruct (back_Add_plain args Hargs) as (r & -> & Hr).
    split; [done|]. by apply Hc.
  - (* Mul *)
    unfold back_outcome. cbn. specialize (Hmap l IH).
    destruct (mapM _ l) as [args|ex]; cbn; [|done].
    destruct Hmap as [Hl Hargs].
    destruct (back_Mul_plain args Hargs) as (r & -> & Hr).
    split; [done|]. by apply Hc.
  - (* Pow *)
    unfold back_outcome in *. cbn.
    destruct (_sympy2operation b vm) as [a0|ex0]; cbn.
    + destruct IHb as (Hb & Hp0 & _).
      apply andb_prop in Hb as [Rb Sb]. rewrite Rb, Sb. cbn.
      destruct (_sympy2operation e vm) as [a1|ex1]; cbn.
      * destruct IHe as (He & _ & Hn).
        apply andb_prop in He as [Re Se]. rewrite Re, Se. cbn.
        pose proof (back_Pow_outcome a0 a1 Hp0) as Ho. cbn zeta in Ho.
        rewrite Hn in Ho.
        destruct (back_Pow a0 a1) as [r|ex].
        -- destruct Ho as [Hne Hr]. rewrite bool_decide_eq_false_2 by done.
           split; [done|]. by apply Hc.
        -- destruct Ho as [-> ->]. done.
      * destruct IHe as [He Hk]. split.
        -- destruct (registered vm e), (back_shape e); try done.
        -- intros ->. by rewrite Hk.
    + destruct IHb as [Hb Hk]. split.
      * destruct (registered vm b), (back_shape b); try done; simpl;
          by rewrite ?andb_false_r.
      * intros ->. by rewrite Hk.
  - (* Apply *)
    unfold back_outcome. cbn. specialize (Hmap l IH).
    destruct (mapM _ l) as [args|ex] eqn:Em; cbn.
    + destruct Hmap as [Hl Hargs]. apply andb_prop in Hl as [Rl Sl].
      rewrite Rl, Sl. cbn.
      assert (nonempty args = nonempty l) as Hne.
      { apply mapM_Ok_Forall2 in Em. by destruct Em. }
      pose proof (back_Apply_outcome f args) as Ho.
      destruct (back_Apply f args) as [r|ex].
      * destruct Ho as (Hr & Hf & Ha). rewrite <- Hne, Ha.
        split; [by destruct f|]. by apply Hc.
      * destruct Ho as [[->|Ha] Hk]; [done|].
        rewrite <- Hne, Ha. split; [by rewrite andb_false_r|done].
    + destruct Hmap as [Hl Hk]. split; [|done].
      destruct (forallb (registered vm) l), (forallb back_shape l);
        try done.
Qed.

End Back_domain.

(** ** The value of what the back-conversion returns *)



Lemma respects_well_named env vm : respects env vm -> well_named vm.
Proof. intros Hvm k v Hk. by destruct (Hvm k v Hk). Qed.

Section Back_value.
Context `{!latexexpr_efficalc.Defaults}.
Variable env : string -> R.










Variable vm : VarMap.
Hypothesis Hvm : respects env vm.



End Back_value.

(** ** The form of what the forward conversion returns *)


Lemma forallb_Forall {A} (f : A -> bool) l :
  forallb f l = true -> Forall (fun a => f a = true) l.
Proof.
  intros Hl. apply List.Forall_forall. by apply forallb_forall.
Qed.

Section Forward_image.
Context {Kw : Type} `{!sympy.Cas Kw}.






End Forward_image.

(** ** The conversions: where they return and what they keep *)

Lemma Forall_vars_True e : Forall_vars (fun _ _ => True) e.
Proof.
  induction e as [name value|t args format exponent IH|name operation IH]
    using LExpr_nested_ind; simpl; [done| |done].
  induction IH; by simpl.
Qed.


Section Conversion_domains.
Context {Kw : Type} `{!sympy.Cas Kw} `{!latexexpr_efficalc.Defaults}.

(** no branch of the forward conversion raises [KeyError]; the CAS
    might, on the argument of a [_LOG10] *)
Lemma o2s_no_KeyError e :
  no_log10 e = true ->
  forall vm sf, _operation_to_sympy e vm sf <> Raise KeyError.
Proof.
  induction e as [name value|t args format exponent IH|name operation IH]
    using LExpr_nested_ind; intros Hl vm sf.
  - destruct value as [v|]; simpl; [|done].
    destruct (String.eqb name (fmt_g v)).
    + destruct (py_int v) as [z|ex] eqn:Ez; cbn.
      * by destruct (py_eq_int v z).
      * destruct v as [z|[q|b|]]; simpl in Ez; congruence.
    + by destruct (negb sf).
  - simpl in Hl. apply andb_prop in Hl as [Ht Hargs].
    apply forallb_Forall in Hargs.
    assert (Forall (fun a => forall vm,
                        _operation_to_sympy a vm sf <> Raise KeyError) args)
      as IH'.
    { apply List.Forall_forall. intros a Ha vm0.
      apply (proj1 (List.Forall_forall _ _) IH a Ha).
      by apply (proj1 (List.Forall_forall _ _) Hargs). }
    clear IH Hargs.
    assert (forall vm, convert_each
                         (fun a vm => _operation_to_sympy a vm sf) args vm
                       <> Raise KeyError) as Hall.
    { induction IH' as [|a args Ha _ IHargs]; intros vm0; [done|].
      cbn. specialize (Ha vm0).
      destruct (_operation_to_sympy a vm0 sf) as [[s0 vm1]|ex0];
        [|cbn; congruence]. cbn.
      fold (convert_each (fun a vm => _operation_to_sympy a vm sf)).
      specialize (IHargs vm1).
      destruct (convert_each _ args vm1) as [[ss vm2]|]; [done|cbn; congruence]. }
    destruct t; try discriminate Ht; cbn -[convert_each]; eval_tags_goal;
      cbn -[convert_each]; try done;
      try (specialize (Hall vm);
           destruct (convert_each _ args vm) as [[ss vm1]|];
           [done|cbn; congruence]).
    all: destruct args as [|a0 args]; [done|];
      inversion IH' as [|? ? IH0 IHr]; subst.
    all: try apply IH0.
    all: specialize (IH0 vm);
      destruct (_operation_to_sympy a0 vm sf) as [[s0 vm0]|];
      [|cbn; congruence]; cbn; try done.
    all: destruct args as [|a1 args]; [done|];
      inversion IHr as [|? ? IH1 _]; subst; specialize (IH1 vm0);
      destruct (_operation_to_sympy a1 vm0 sf) as [[s1 vm1]|];
      [done|cbn; congruence].
  - simpl in *. by apply IH.
Qed.

Lemma o2s_keeps_well_named e vm sf s vm' :
  well_named vm ->
  _operation_to_sympy e vm sf = Ok (s, vm') ->
  well_named vm' /\ keys_kept vm vm' /\
  (no_log10 e = true -> registered vm' s = true).
Proof.
  intros Hvm Hs.
  pose proof (o2s_varMap
                (fun k v => exists value, v = latexexpr_efficalc.Var k value)
                (fun _ _ => True) sf
                (fun name value _ _ => ex_intro _ value eq_refl)
                e (Forall_vars_True e) vm Hvm) as Hk.
  by rewrite Hs in Hk.
Qed.




(** X3. The forward conversion of a tree without [_LOG10] leaves
    [varMap] well named, removes none of its keys, and has filed every
    symbol of the expression it returns: the back-conversion finds each
    of them. *)
Theorem o2s_registers_symbols e vm sf s vm' :
  well_named vm -> no_log10 e = true ->
  _operation_to_sympy e vm sf = Ok (s, vm') ->
  well_named vm' /\ keys_kept vm vm' /\ registered vm' s = true.
Proof.
  intros Hvm Hl Hs.
  destruct (o2s_keeps_well_named e vm sf s vm' Hvm Hs) as (H1 & H2 & H3).
  auto.
Qed.

(** X4. The round trip of a tree without [_LOG10] never raises
    [KeyError]: neither conversion looks up a name that has not been
    filed. *)
Theorem roundtrip_no_KeyError e sf :
  no_log10 e = true -> roundtrip e sf <> Raise KeyError.
Proof.
  intros Hl. unfold roundtrip.
  destruct (_operation_to_sympy e ∅ sf) as [[s vm']|ex] eqn:E; cbn.
  - assert (well_named ∅) as Hem
        by (intros k v Hk; by rewrite lookup_empty in Hk).
    destruct (o2s_keeps_well_named e ∅ sf s vm' Hem E) as (Hvm & _ & Hr).
    pose proof (s2o_outcome vm' Hvm s) as Ho. unfold back_outcome in Ho.
    destruct (_sympy2operation s vm') as [r|ex]; [done|].
    destruct Ho as [_ Hk]. intros [= ->]. rewrite (Hr Hl) in Hk.
    by discriminate Hk.
  - intros [= ->]. by apply (o2s_no_KeyError e Hl ∅ sf).
Qed.

End Conversion_domains.

Section Conversion_round_trip.
Context {Kw : Type} `{!sympy.Cas Kw} `{!latexexpr_efficalc.Defaults}.


(** X5. With [substituteFloats] on, the forward conversion files
    symbolic variables only: a variable that has a value is replaced by
    the value and never reaches [varMap]. *)
Theorem o2s_substituteFloats_symbolic e vm s vm' :
  (forall k v, vm !! k = Some v -> v = latexexpr_efficalc.Var k None) ->
  _operation_to_sympy e vm true = Ok (s, vm') ->
  forall k v, vm' !! k = Some v -> v = latexexpr_efficalc.Var k None.
Proof.
  intros Hvm Hs.
  pose proof (o2s_varMap
                (fun k v => v = latexexpr_efficalc.Var k None)
                (fun _ _ => True) true) as Hk.
  assert (forall name value, True -> value = None \/ true = false ->
            latexexpr_efficalc.Var name value
            = latexexpr_efficalc.Var name None) as HPQ.
  { by intros name value _ [->|]. }
  specialize (Hk HPQ e (Forall_vars_True e) vm Hvm).
  rewrite Hs in Hk. by destruct Hk.
Qed.



(** X8. The back-conversion decides by name: in a product of two
    factors, a number whose ["%g"] form is [-1] is taken for the number
    -1 and dropped for a negation, whatever its value (-1.0000001 in
    the example below). *)
Theorem s2o_negation_by_name q b vm r :
  fmt_g (PyFloat (Finite q)) = "-1" ->
  _sympy2operation b vm = Ok r ->
  _sympy2operation (sympy.Mul [sympy.Float q; b]) vm
  = Ok (latexexpr_efficalc.neg r).
Proof.
  intros Hq Hb. cbn -[fmt_g back_Mul]. rewrite Hb. cbn -[fmt_g back_Mul].
  unfold back_Mul, latexexpr_efficalc.number. cbn -[fmt_g]. by rewrite Hq.
Qed.

(** X9. A power whose exponent comes back as a variable named [0.5]
    (the float 0.5, or a symbol of that name) makes the back-conversion
    raise [TypeError]: line 234 calls the tag [_SQRT]. *)
Theorem s2o_half_power_raises b e vm a0 a1 :
  well_named vm ->
  _sympy2operation b vm = Ok a0 ->
  _sympy2operation e vm = Ok a1 ->
  exponent_name e = Some "0.5" ->
  _sympy2operation (sympy.Pow b e) vm = Raise TypeError.
Proof.
  intros Hvm Hb He Hn. cbn. rewrite Hb, He. cbn.
  pose proof (s2o_outcome vm Hvm e) as Ho. unfold back_outcome in Ho.
  rewrite He in Ho. destruct Ho as (_ & _ & Ha1). rewrite Hn in Ha1.
  unfold back_Pow. rewrite Ha1. by repeat case_bool_decide.
Qed.



End Conversion_round_trip.

(** ** The method forms, the calls into the CAS, and the value of the
       result *)

Section Method_facts.
Context {Kw : Type} `{!sympy.Cas Kw} `{!latexexpr_efficalc.Defaults}.
Implicit Types (σ : State Kw) (e : sympy.Entry) (osyms : option PyObj).

Lemma delegate_calls e osyms arg sf kw :
  exists r calls,
    (forall σ, delegate e osyms arg sf kw σ = (r, called σ calls)) /\
    (length calls <= 1)%nat /\
    Forall (fun c => sympy.entry c = e /\ sympy.kw c = kw) calls.
Proof.
  destruct (_operation_to_sympy arg ∅ sf) as [[s lVars]|ex] eqn:Hf.
  - destruct (match osyms with
               | Some o => Some <$> collect_syms o
               | None => Ok None
               end) as [syms'|ex] eqn:Hs.
    + eexists _, [_]. split; [|split].
      * intros σ'. rewrite delegate_run, Hf, Hs. reflexivity.
      * simpl; lia.
      * by constructor.
    + exists (Raise ex), []. split; [|split; [simpl; lia|constructor]].
      intros σ'. by rewrite delegate_run, Hf, Hs, called_nil.
  - exists (Raise ex), []. split; [|split; [simpl; lia|constructor]].
    intros σ'. by rewrite delegate_run, Hf, called_nil.
Qed.




Lemma Expression_method_run e osyms self sf kw σ name operation :
  heap σ !! self
  = Some (Obj (latexexpr_efficalc.Expression name operation)) ->
  Expression_method e osyms self sf kw σ =
    let '(r, σ1) := wrapper_on e osyms sf kw operation σ in
    match r with
    | Ok r' =>
        (Ok tt,
         mkState (<[self := Obj (latexexpr_efficalc.Expression name r')]>
                    (heap σ))
                 (trace σ1))
    | Raise ex => (Raise ex, σ1)
    end.
Proof.
  intros Hself.
  destruct (wrapper_on_called e osyms sf kw operation)
    as (r & calls & Hrun & _).
  unfold Expression_method. rewrite bind_run. unfold deref at 1.
  rewrite Hself, bind_run, Hrun. destruct r as [r'|ex]; [|done].
  unfold _setOperation. rewrite bind_run. unfold deref at 1, called.
  cbn [heap trace]. by rewrite Hself.
Qed.

(** X12. The method form of an [Expression] writes to the receiver
    only.  It returns when the function form applied to the
    [operation] field returns, and the receiver then has the same name
    and the processed operation; when the function raises the method
    raises the same exception and the heap is as it was. *)
Theorem Expression_method_effect syms o self sf kw σ name operation :
  o ∈ operations syms ->
  heap σ !! self
  = Some (Obj (latexexpr_efficalc.Expression name operation)) ->
  let out := Expression_fn o self sf kw σ in
  (forall l, l <> self -> heap out.2 !! l = heap σ !! l) /\
  match out.1 with
  | Ok _ =>
      exists r, (fn_on o sf kw operation σ).1 = Ok r /\
                heap out.2 !! self
                = Some (Obj (latexexpr_efficalc.Expression name r))
  | Raise ex =>
      (fn_on o sf kw operation σ).1 = Raise ex /\ heap out.2 = heap σ
  end.
Proof.
  intros Ho Hself out. subst out.
  destruct (operations_instances _ _ Ho) as (e & osyms & _ & -> & -> & _).
  rewrite (Expression_method_run _ _ _ _ _ _ _ _ Hself).
  destruct (wrapper_on_called e osyms sf kw operation)
    as (r & calls & Hrun & _).
  rewrite Hrun. destruct r as [r|ex]; cbn [fst snd heap called].
  - split.
    + intros l Hl. by rewrite list_lookup_insert_ne.
    + exists r. split; [done|].
      apply list_lookup_insert_eq. by eapply lookup_lt_Some.
  - done.
Qed.

Lemma Operation_method_run e osyms self sf kw σ t0 args0 fmt0 ex0 :
  heap σ !! self
  = Some (Obj (latexexpr_efficalc.Operation t0 args0 fmt0 ex0)) ->
  Operation_method e osyms self sf kw σ =
    let '(r, σ1) :=
      delegate e osyms (latexexpr_efficalc.Operation t0 args0 fmt0 ex0)
               sf kw σ in
    match r with
    | Ok (latexexpr_efficalc.Operation _ _ _ _ as r') =>
        (Ok tt,
         mkState (<[self := Obj r']> (heap σ ++ [Obj r'])%list) (trace σ1))
    | Ok r' =>
        (Raise AttributeError, mkState (heap σ ++ [Obj r'])%list (trace σ1))
    | Raise ex => (Raise ex, σ1)
    end.
Proof.
  intros Hself. unfold Operation_method. rewrite bind_run.
  rewrite (wrapper_run _ _ _ _ _ _ _ Hself).
  destruct (delegate_calls e osyms
              (latexexpr_efficalc.Operation t0 args0 fmt0 ex0) sf kw)
    as (r & calls & -> & _).
  destruct r as [r|ex]; [|done].
  unfold _copyOperation. rewrite bind_run. unfold deref at 1.
  cbn [heap]. rewrite list_lookup_middle by done.
  destruct r as [name value|t args fmt ex|name op]; try done.
  rewrite bind_run. unfold deref at 1. cbn [heap].
  by rewrite (lookup_app_l_Some _ _ _ _ Hself).
Qed.

(** X13. The method form of an [Operation] leaves every other object
    as it was.  When it returns, the function form has returned an
    [Operation] at a new location and the receiver has its four fields;
    when it raises, the receiver has the fields it had. *)
Theorem Operation_method_effect syms o self sf kw σ t0 args0 fmt0 ex0 :
  o ∈ operations syms ->
  heap σ !! self
  = Some (Obj (latexexpr_efficalc.Operation t0 args0 fmt0 ex0)) ->
  let out := Operation_fn o self sf kw σ in
  (forall l x, l <> self -> heap σ !! l = Some x -> heap out.2 !! l = Some x) /\
  match out.1 with
  | Ok _ =>
      exists r t args fmt ex,
        (fn o self sf kw σ).1 = Ok r /\
        heap (fn o self sf kw σ).2 !! r
        = Some (Obj (latexexpr_efficalc.Operation t args fmt ex)) /\
        heap out.2 !! self
        = Some (Obj (latexexpr_efficalc.Operation t args fmt ex))
  | Raise _ =>
      heap out.2 !! self
      = Some (Obj (latexexpr_efficalc.Operation t0 args0 fmt0 ex0))
  end.
Proof.
  intros Ho Hself out. subst out.
  destruct (operations_instances _ _ Ho) as (e & osyms & -> & _ & _ & -> & _).
  rewrite (Operation_method_run _ _ _ _ _ _ _ _ _ _ Hself).
  rewrite (wrapper_run _ _ _ _ _ _ _ Hself).
  destruct (delegate_calls e osyms
              (latexexpr_efficalc.Operation t0 args0 fmt0 ex0) sf kw)
    as (r & calls & -> & _).
  destruct r as [r|ex]; cbn [fst snd heap called]; [|done].
  assert (forall l x, heap σ !! l = Some x ->
            (heap σ ++ [Obj r])%list !! l = Some x) as Hkeep.
  { intros l x Hl. by apply lookup_app_l_Some. }
  destruct r as [name value|t args fmt ex|name op]; cbn [fst snd heap];
    try (split; [by intros l x _; apply Hkeep|by apply Hkeep]).
  split.
  - intros l x Hl Hx. rewrite list_lookup_insert_ne by done. by apply Hkeep.
  - exists (length (heap σ)), t, args, fmt, ex. split; [done|].
    split; [by rewrite list_lookup_middle|].
    apply list_lookup_insert_eq. rewrite length_app. simpl.
    apply lookup_lt_Some in Hself. lia.
Qed.



End Method_facts.

Section Names.
Context {Kw : Type} `{!sympy.Cas Kw} `{!latexexpr_efficalc.Defaults}.

Lemma o2s_ADD_two a0 a1 fmt ex vm sf s0 vm0 s1 vm1 :
  _operation_to_sympy a0 vm sf = Ok (s0, vm0) ->
  _operation_to_sympy a1 vm0 sf = Ok (s1, vm1) ->
  _operation_to_sympy
    (latexexpr_efficalc.Operation latexexpr_efficalc._ADD [a0; a1] fmt ex)
    vm sf
  = Ok (sympy.Add [s0; s1], vm1).
Proof. intros E0 E1. cbn. rewrite E0. cbn. by rewrite E1. Qed.

Lemma o2s_becomes_symbol sf name value vm :
  becomes_symbol sf name value = true ->
  _operation_to_sympy (latexexpr_efficalc.Var name value) vm sf
  = Ok (sympy.Symbol name,
        <[name := latexexpr_efficalc.Var name value]> vm).
Proof.
  destruct value as [v|]; [|done]. simpl.
  intros [Hn Hsf]%andb_prop. apply negb_true_iff in Hn. by rewrite Hn, Hsf.
Qed.

(** X16. Two variables of one name are one symbol to the CAS, and
    [varMap] keeps the later one: the back-conversion returns it for
    every occurrence of the symbol, also where the earlier variable
    stood. *)
Theorem o2s_last_variable_wins name v1 v2 vm sf fmt ex :
  becomes_symbol sf name v1 = true ->
  becomes_symbol sf name v2 = true ->
  let vm' := <[name := latexexpr_efficalc.Var name v2]> vm in
  _operation_to_sympy
    (latexexpr_efficalc.Operation latexexpr_efficalc._ADD
       [latexexpr_efficalc.Var name v1; latexexpr_efficalc.Var name v2] fmt ex)
    vm sf
  = Ok (sympy.Add [sympy.Symbol name; sympy.Symbol name], vm') /\
  _sympy2operation (sympy.Symbol name) vm'
  = Ok (latexexpr_efficalc.Var name v2).
Proof.
  intros H1 H2 vm'. split.
  - rewrite (o2s_ADD_two _ _ _ _ _ _ _ _ _ _
               (o2s_becomes_symbol sf name v1 vm H1)
               (o2s_becomes_symbol sf name v2 _ H2)).
    unfold vm'. by rewrite insert_insert_eq.
  - cbn. unfold vm'. by rewrite lookup_insert_eq.
Qed.

(** X17. [collect] with a single [Variable] for [syms] makes one call
    into the CAS, with the converted expression and the symbol named
    after the variable, whatever the value of the variable and whether
    or not [substituteFloats] has replaced it in the expression. *)
Theorem collect_passes_symbol a name value sf kw (σ : State Kw)
        t args fmt ex s lVars :
  heap σ !! a = Some (Obj (latexexpr_efficalc.Operation t args fmt ex)) ->
  _operation_to_sympy (latexexpr_efficalc.Operation t args fmt ex) ∅ sf
  = Ok (s, lVars) ->
  calls_of (collect a (Obj (latexexpr_efficalc.Var name value)) sf kw) σ
  = [sympy.mkCall sympy.collect s (Some (sympy.Symbol name)) kw].
Proof.
  intros Ha Hs. unfold collect.
  by apply (wrapper_calls sympy.collect
              (Some (Obj (latexexpr_efficalc.Var name value)))
              (Some (sympy.Symbol name)) a sf kw σ t args fmt ex s lVars).
Qed.

End Names.

(** ** The model on concrete inputs *)

#[local] Existing Instance echo_cas.
#[local] Existing Instance example_defaults.

Example fmt_g_examples :
  List.map fmt_g
    [PyInt 2; PyInt (-1); PyFloat (Finite (1 # 2)); PyFloat (Finite (123 # 100));
     PyInt 1000000; PyFloat (Finite (1 # 100000));
     PyFloat (Finite (9999995 # 10)); PyFloat (Finite (-21 # 10))]
  = ["2"; "-1"; "0.5"; "1.23"; "1e+06"; "1e-05"; "1e+06"; "-2.1"].
Proof. reflexivity. Qed.

(** [x - 2] with [substituteFloats] off and [v - 2] with it on, for
    [v = 4.56] *)
Example o2s_sub_examples :
  let x := latexexpr_efficalc.Var "x" None in
  let v := latexexpr_efficalc.Var "v" (Some (PyFloat (Finite (456 # 100)))) in
  let two := latexexpr_efficalc.number (PyInt 2) in
  _o2s (latexexpr_efficalc.sub x two) ∅ false
  = Ok (sympy.Add [sympy.Symbol "x";
                   sympy.Mul [sympy.Integer (-1); sympy.Integer 2]]) /\
  _o2s (latexexpr_efficalc.sub v two) ∅ false
  = Ok (sympy.Add [sympy.Symbol "v";
                   sympy.Mul [sympy.Integer (-1); sympy.Integer 2]]) /\
  _o2s (latexexpr_efficalc.sub v two) ∅ true
  = Ok (sympy.Add [sympy.Float (456 # 100);
                   sympy.Mul [sympy.Integer (-1); sympy.Integer 2]]).
Proof. repeat split; reflexivity. Qed.

(** round trips that come back as they went, and the quotient, which
    comes back as a product with a reciprocal (the shape the examples
    of [cancel] in the module's documentation show) *)
Example roundtrip_examples :
  let x := latexexpr_efficalc.Var "x" None in
  let y := latexexpr_efficalc.Var "y" None in
  let two := latexexpr_efficalc.number (PyInt 2) in
  roundtrip (latexexpr_efficalc.sub x y) false
  = Ok (latexexpr_efficalc.sub x y) /\
  roundtrip (latexexpr_efficalc.pow x two) false
  = Ok (latexexpr_efficalc.pow x two) /\
  roundtrip (latexexpr_efficalc.sin (latexexpr_efficalc.add [x; y])) false
  = Ok (latexexpr_efficalc.sin (latexexpr_efficalc.add [x; y])) /\
  roundtrip (latexexpr_efficalc.div x y) false
  = Ok (latexexpr_efficalc.mul
          [x; latexexpr_efficalc.div
                (latexexpr_efficalc.number (PyFloat (Finite 1))) y]).
Proof. repeat split; reflexivity. Qed.

(** [e1.simplify()] on an expression, with the CAS that echoes *)
Example Expression_simplify_example :
  let x := latexexpr_efficalc.Var "x" None in
  let op := latexexpr_efficalc.brackets (latexexpr_efficalc.add [x; x]) in
  let σ : State unit := mkState [Obj (latexexpr_efficalc.Expression "e1" op)] [] in
  (Expression_simplify 0%nat false tt σ).1 = Ok tt /\
  heap (Expression_simplify 0%nat false tt σ).2
  = [Obj (latexexpr_efficalc.Expression "e1"
            (latexexpr_efficalc.add [x; x]))].
Proof. split; reflexivity. Qed.

Lemma function_form_argument_type_witness :
  simplify 0%nat false tt
    (mkState [Obj (latexexpr_efficalc.Var "x" None)] [] : State unit)
  = (Ok 0%nat, mkState [Obj (latexexpr_efficalc.Var "x" None)] []).
Proof.
  apply (@function_form_argument_type unit echo_cas example_defaults
           (ObjOther "int")
           (mkOperation simplify (wrapper_on sympy.simplify None)
                        Expression_simplify Operation_simplify)
           0%nat false tt
           (mkState [Obj (latexexpr_efficalc.Var "x" None)] [])
           (Obj (latexexpr_efficalc.Var "x" None))).
  - apply list_elem_of_here.
  - reflexivity.
Defined.

Lemma collect_rejects_non_variable_witness :
  let x := latexexpr_efficalc.Var "x" None in
  let y := latexexpr_efficalc.Var "y" None in
  let σ := mkState
             [Obj (latexexpr_efficalc.Operation latexexpr_efficalc._ADD
                     [latexexpr_efficalc.Operation latexexpr_efficalc._MUL
                        [x; y] "%.2f" 0; x] "%.2f" 0)] []
           : State unit in
  exists exn, collect 0%nat (ObjList [Obj x; Obj y]) false tt σ = (Raise exn, σ) /\
            calls_of (collect 0%nat (ObjList [Obj x; Obj y]) false tt) σ = [].
Proof.
  intros x y σ.
  eapply (@collect_rejects_non_variable unit echo_cas example_defaults).
  - reflexivity.
  - discriminate.
Defined.

Lemma function_form_copies_Expression_witness :
  let e := latexexpr_efficalc.Expression "e1"
             (latexexpr_efficalc.Operation latexexpr_efficalc._ADD
                [latexexpr_efficalc.Var "x" None;
                 latexexpr_efficalc.Var "y" None] "%.2f" 0) in
  let σ : State unit := mkState [ObjOther "int"; Obj e] [] in
  heap (factor 1%nat false tt σ).2 !! 1%nat = Some (Obj e).
Proof.
  intros e σ.
  apply (@function_form_copies_Expression unit echo_cas example_defaults
           (ObjOther "int")
           (mkOperation factor (wrapper_on sympy.factor None)
                        Expression_factor Operation_factor)
           1%nat false tt σ).
  - apply list_elem_of_further, list_elem_of_further, list_elem_of_here.
  - reflexivity.
Defined.

Lemma function_form_deterministic_witness :
  let e := latexexpr_efficalc.Expression "e1"
             (latexexpr_efficalc.Operation latexexpr_efficalc._ADD
                [latexexpr_efficalc.Var "x" None;
                 latexexpr_efficalc.Var "y" None] "%.2f" 0) in
  let σ1 : State unit := mkState [Obj e] [] in
  let σ2 := mkState [ObjOther "int"; Obj e]
                    [sympy.mkCall sympy.apart (sympy.Symbol "z") None tt] in
  calls_of (expand 0%nat true tt) σ1
  = calls_of (expand 1%nat true tt) σ2.
Proof.
  intros e σ1 σ2.
  apply (@function_form_deterministic unit echo_cas example_defaults
           (ObjOther "int")
           (mkOperation expand (wrapper_on sympy.expand None)
                        Expression_expand Operation_expand)
           0%nat 1%nat true tt σ1 σ2 (Obj e)).
  - apply list_elem_of_further, list_elem_of_here.
  - reflexivity.
  - reflexivity.
Defined.

Lemma Operation_method_variable_result_witness :
  let x := latexexpr_efficalc.Var "x" None in
  let op := latexexpr_efficalc.Operation latexexpr_efficalc._RBRACKETS
              [x] "%.2f" 0 in
  let σ : State unit := mkState [Obj op] [] in
  let σ1 := mkState [Obj op; Obj x]
                    [sympy.mkCall sympy.simplify (sympy.Symbol "x") None tt] in
  Operation_simplify 0%nat false tt σ
  = (Raise AttributeError, σ1) /\
  heap σ1 !! 0%nat = Some (Obj op).
Proof.
  intros x op σ σ1.
  apply (@Operation_method_variable_result unit echo_cas example_defaults
           (ObjOther "int")
           (mkOperation simplify (wrapper_on sympy.simplify None)
                        Expression_simplify Operation_simplify)
           0%nat false tt σ σ1 (Obj op) 1%nat "x" None).
  - apply list_elem_of_here.
  - reflexivity.
  - reflexivity.
  - reflexivity.
Defined.

Lemma example_varMap_respects : respects example_env example_varMap.
Proof.
  unfold example_varMap. intros k v [<- <-]%lookup_singleton_Some.
  split; [by eexists|done].
Qed.


Lemma o2s_registers_symbols_witness :
  well_named (<["y" := latexexpr_efficalc.Var "y" None]>
                (<["x" := latexexpr_efficalc.Var "x" None]> example_varMap)) /\
  keys_kept example_varMap
    (<["y" := latexexpr_efficalc.Var "y" None]>
       (<["x" := latexexpr_efficalc.Var "x" None]> example_varMap)) /\
  registered
    (<["y" := latexexpr_efficalc.Var "y" None]>
       (<["x" := latexexpr_efficalc.Var "x" None]> example_varMap))
    (sympy.Add
       [sympy.Mul [sympy.Symbol "x"; sympy.Integer 2];
        sympy.Mul [sympy.Integer (-1);
                   sympy.Apply sympy.sin [sympy.Symbol "y"]]]) = true.
Proof.
  apply (@o2s_registers_symbols unit echo_cas
           example_tree example_varMap false).
  - apply (respects_well_named example_env), example_varMap_respects.
  - reflexivity.
  - reflexivity.
Defined.

Lemma roundtrip_no_KeyError_witness :
  roundtrip
    (latexexpr_efficalc.Operation latexexpr_efficalc._EXP
       [latexexpr_efficalc.Var "x" None] "" 0) false
  = Raise KeyError <-> False.
Proof.
  split; [|done].
  apply (@roundtrip_no_KeyError unit echo_cas example_defaults
           (latexexpr_efficalc.Operation latexexpr_efficalc._EXP
              [latexexpr_efficalc.Var "x" None] "" 0) false).
  reflexivity.
Defined.

Lemma o2s_substituteFloats_symbolic_witness :
  let v := latexexpr_efficalc.Var "v" (Some (PyFloat (Finite (456 # 100)))) in
  let vm' := <["y" := latexexpr_efficalc.Var "y" None]> example_varMap in
  _operation_to_sympy
    (latexexpr_efficalc.add [v; latexexpr_efficalc.Var "y" None])
    example_varMap true
  = Ok (sympy.Add [sympy.Float (456 # 100); sympy.Symbol "y"], vm') /\
  vm' !! "v" = None /\
  forall k w, vm' !! k = Some w -> w = latexexpr_efficalc.Var k None.
Proof.
  intros v vm'. split; [reflexivity|]. split; [reflexivity|].
  apply (@o2s_substituteFloats_symbolic unit echo_cas
           (latexexpr_efficalc.add [v; latexexpr_efficalc.Var "y" None])
           example_varMap
           (sympy.Add [sympy.Float (456 # 100); sympy.Symbol "y"]) vm').
  - unfold example_varMap. by intros k w [<- <-]%lookup_singleton_Some.
  - reflexivity.
Defined.



Lemma s2o_negation_by_name_witness :
  _sympy2operation
    (sympy.Mul [sympy.Float (-10000001 # 10000000); sympy.Symbol "x"])
    example_varMap
  = Ok (latexexpr_efficalc.neg (latexexpr_efficalc.Var "x" None)).
Proof.
  apply (@s2o_negation_by_name example_defaults
           (-10000001 # 10000000) (sympy.Symbol "x") example_varMap
           (latexexpr_efficalc.Var "x" None)).
  - reflexivity.
  - reflexivity.
Defined.

Lemma s2o_half_power_raises_witness :
  _sympy2operation (sympy.Pow (sympy.Symbol "x") (sympy.Float (1 # 2)))
                   example_varMap
  = Raise TypeError.
Proof.
  apply (@s2o_half_power_raises example_defaults
           (sympy.Symbol "x") (sympy.Float (1 # 2)) example_varMap
           (latexexpr_efficalc.Var "x" None)
           (latexexpr_efficalc.number (PyFloat (Finite (1 # 2))))).
  - apply (respects_well_named example_env), example_varMap_respects.
  - reflexivity.
  - reflexivity.
  - reflexivity.
Defined.



Lemma Expression_method_effect_witness :
  let op := latexexpr_efficalc.brackets
              (latexexpr_efficalc.add [latexexpr_efficalc.Var "x" None;
                                       latexexpr_efficalc.Var "x" None]) in
  let σ : State unit :=
    mkState [ObjOther "int"; Obj (latexexpr_efficalc.Expression "e1" op)] [] in
  heap (Expression_expand 1%nat false tt σ).2 !! 0%nat = Some (ObjOther "int").
Proof.
  intros op σ.
  apply (@Expression_method_effect unit echo_cas example_defaults
           (ObjOther "int")
           (mkOperation expand (wrapper_on sympy.expand None)
                        Expression_expand Operation_expand)
           1%nat false tt σ "e1" op).
  - apply list_elem_of_further, list_elem_of_here.
  - reflexivity.
  - discriminate.
Defined.

Lemma Operation_method_effect_witness :
  let op := latexexpr_efficalc.add [latexexpr_efficalc.Var "x" None;
                                    latexexpr_efficalc.Var "x" None] in
  let σ : State unit := mkState [Obj op; ObjOther "int"] [] in
  heap (Operation_cancel 0%nat false tt σ).2 !! 1%nat = Some (ObjOther "int").
Proof.
  intros op σ.
  apply (@Operation_method_effect unit echo_cas example_defaults
           (ObjOther "int")
           (mkOperation cancel (wrapper_on sympy.cancel None)
                        Expression_cancel Operation_cancel)
           0%nat false tt σ latexexpr_efficalc._ADD
           [latexexpr_efficalc.Var "x" None; latexexpr_efficalc.Var "x" None]
           "%.2f" 0).
  - repeat first [apply list_elem_of_here | apply list_elem_of_further].
  - reflexivity.
  - discriminate.
  - reflexivity.
Defined.



Lemma o2s_last_variable_wins_witness :
  let x1 := latexexpr_efficalc.Var "x" None in
  let x2 := latexexpr_efficalc.Var "x" (Some (PyFloat (Finite (5 # 2)))) in
  roundtrip (latexexpr_efficalc.add [x1; x2]) false
  = Ok (latexexpr_efficalc.add [x2; x2]) /\
  _sympy2operation (sympy.Symbol "x") (<["x" := x2]> ∅) = Ok x2.
Proof.
  intros x1 x2. split; [reflexivity|].
  apply (@o2s_last_variable_wins unit echo_cas example_defaults
           "x" None (Some (PyFloat (Finite (5 # 2)))) ∅ false "%.2f" 0).
  - reflexivity.
  - reflexivity.
Defined.

Lemma collect_passes_symbol_witness :
  let v := latexexpr_efficalc.Var "v" (Some (PyFloat (Finite (5 # 2)))) in
  let op := latexexpr_efficalc.add
              [latexexpr_efficalc.mul [latexexpr_efficalc.Var "x" None; v];
               v] in
  calls_of (collect 0%nat (Obj v) true tt)
           (mkState [Obj op] [] : State unit)
  = [sympy.mkCall sympy.collect
       (sympy.Add [sympy.Mul [sympy.Symbol "x"; sympy.Float (5 # 2)];
                   sympy.Float (5 # 2)])
       (Some (sympy.Symbol "v")) tt].
Proof.
  intros v op.
  apply (@collect_passes_symbol unit echo_cas example_defaults
           0%nat "v" (Some (PyFloat (Finite (5 # 2)))) true tt
           (mkState [Obj op] [])
           latexexpr_efficalc._ADD
           [latexexpr_efficalc.mul [latexexpr_efficalc.Var "x" None; v]; v]
           "%.2f" 0 _ {[ "x" := latexexpr_efficalc.Var "x" None ]}).
  - reflexivity.
  - reflexivity.
Defined.
